(** * CRMLYZ: the client list's filter and selection logic, and the login handler

    A shallow embedding of [ClientList] (the [filteredClients] computation, the
    delete-confirmation and details-view handlers) and of [Login.handleLogin],
    followed by the properties the specification states about them. *)

From Stdlib Require Import Bool Arith Lia ZArith List Ascii String.
From stdpp Require Import list.
Import ListNotations.

Local Open Scope bool_scope.
Local Open Scope list_scope.
Local Open Scope string_scope.

(** ** JavaScript strings

    A string stands for a well-formed JavaScript string and is written as
    the UTF-8 bytes of its text, one [ascii] a byte.  Equality, emptiness and
    the substring search of [includes] give the same answers on these bytes
    as on the UTF-16 code units of the program.  [toLowerCase] is the
    platform's and is a parameter of the filter; what this module fixes is
    its behaviour on ASCII text, where A-Z move to a-z one unit at a time. *)
Module JsString.

Definition isUpperUnit (c : ascii) : bool :=
  let n := N_of_ascii c in
  ((65 <=? n) && (n <=? 90))%N.

Definition toLowerUnit (c : ascii) : ascii :=
  if isUpperUnit c then ascii_of_N (N_of_ascii c + 32) else c.

(** [String.prototype.toLowerCase] on ASCII text. *)
Fixpoint asciiToLowerCase (s : string) : string :=
  match s with
  | EmptyString => EmptyString
  | String c s' => String (toLowerUnit c) (asciiToLowerCase s')
  end.

(** ASCII text: every byte is below 128. *)
Fixpoint isAscii (s : string) : bool :=
  match s with
  | EmptyString => true
  | String c s' => (N_of_ascii c <? 128)%N && isAscii s'
  end.

(** [s.startsWith(p)], the test [includes] makes at each position. *)
Fixpoint startsWith (s p : string) {struct p} : bool :=
  match p, s with
  | EmptyString, _ => true
  | String _ _, EmptyString => false
  | String b p', String a s' => Ascii.eqb a b && startsWith s' p'
  end.

(** [String.prototype.includes]: [p] occurs in [s] at some position. *)
Fixpoint includes (s p : string) : bool :=
  startsWith s p ||
  match s with
  | EmptyString => false
  | String _ s' => includes s' p
  end.

(** Truthiness of a string value: only the empty string is falsy. *)
Definition truthy (s : string) : bool :=
  match s with
  | EmptyString => false
  | String _ _ => true
  end.

(** Two ASCII units agree up to letter case: they are equal or one is the
    capital of the other. *)
Definition capitalOf (upper lower : ascii) : Prop :=
  isUpperUnit upper = true /\ N_of_ascii lower = (N_of_ascii upper + 32)%N.

Definition sameLetter (a b : ascii) : Prop :=
  a = b \/ capitalOf a b \/ capitalOf b a.

Definition sameLetterb (a b : ascii) : bool :=
  Ascii.eqb a b ||
  (isUpperUnit a && (N_of_ascii b =? N_of_ascii a + 32)%N) ||
  (isUpperUnit b && (N_of_ascii a =? N_of_ascii b + 32)%N).

(** Exhaustive tests over the 256 units. *)
Definition forBool (f : bool -> bool) : bool := f true && f false.

Definition forUnit (f : ascii -> bool) : bool :=
  forBool (fun b0 => forBool (fun b1 => forBool (fun b2 => forBool (fun b3 =>
  forBool (fun b4 => forBool (fun b5 => forBool (fun b6 => forBool (fun b7 =>
    f (Ascii b0 b1 b2 b3 b4 b5 b6 b7))))))))).

Inductive sameLetters : string -> string -> Prop :=
| sameLetters_nil : sameLetters EmptyString EmptyString
| sameLetters_cons a b u v :
    sameLetter a b -> sameLetters u v -> sameLetters (String a u) (String b v).

(** [p] occurs in [s] as a contiguous piece. *)
Definition occursIn (p s : string) : Prop :=
  exists pre post, s = pre ++ p ++ post.

(** What "case-insensitive substring" means, for a lower-casing [lower]:
    some contiguous piece of [s] equals [p] up to letter case, that is, the
    piece and [p] have the same lower-casing. *)
Definition containsIgnoringCase (lower : string -> string) (s p : string) : Prop :=
  exists pre u post, s = pre ++ u ++ post /\ lower u = lower p.

(** A lower-casing that does to ASCII text what the platform's does. *)
Definition asciiFaithful (lower : string -> string) : Prop :=
  forall s, isAscii s = true -> lower s = asciiToLowerCase s.

End JsString.

(** A [toLowerCase] for the examples: the platform's function on text made
    of ASCII characters and the letters of the Greek alphabet (capitals
    U+0391..U+03A9, small letters U+03B1..U+03C9).  A capital sigma becomes
    the final small sigma U+03C2 when a cased letter comes before it and
    none comes after it, the case-ignorable characters ' . : ^ ` in between
    being skipped, and the small sigma U+03C3 otherwise.  Other bytes are
    copied; on text outside this alphabet the function is no model of the
    platform's and is not used. *)
Module AsciiGreek.
Local Open Scope N_scope.

Definition isAsciiLetter (c : ascii) : bool :=
  let n := N_of_ascii c in
  ((65 <=? n) && (n <=? 90)) || ((97 <=? n) && (n <=? 122)).

Definition isCaseIgnorable (c : ascii) : bool :=
  let n := N_of_ascii c in
  (n =? 39) || (n =? 46) || (n =? 58) || (n =? 94) || (n =? 96).

(** The two bytes of a capital, U+0391..U+03A9 without the unassigned
    U+03A2: CE 91 .. CE A9. *)
Definition isGreekCapital (c1 c2 : ascii) : bool :=
  (N_of_ascii c1 =? 206) && (145 <=? N_of_ascii c2) && (N_of_ascii c2 <=? 169) &&
  negb (N_of_ascii c2 =? 162).

(** The two bytes of a small letter, U+03B1..U+03C9: CE B1 .. CE BF and
    CF 80 .. CF 89. *)
Definition isGreekSmall (c1 c2 : ascii) : bool :=
  ((N_of_ascii c1 =? 206) && (177 <=? N_of_ascii c2) && (N_of_ascii c2 <=? 191)) ||
  ((N_of_ascii c1 =? 207) && (128 <=? N_of_ascii c2) && (N_of_ascii c2 <=? 137)).

Definition isCapitalSigma (c1 c2 : ascii) : bool :=
  (N_of_ascii c1 =? 206) && (N_of_ascii c2 =? 163).

Definition twoBytes (b1 b2 : N) : string :=
  String (ascii_of_N b1) (String (ascii_of_N b2) EmptyString).

Definition capitalAlpha : string := twoBytes 206 145.
Definition capitalSigma : string := twoBytes 206 163.
Definition smallAlpha : string := twoBytes 206 177.
Definition smallSigma : string := twoBytes 207 131.
Definition finalSigma : string := twoBytes 207 130.

(** The small letter of the capital CE [c2]: 32 code points up. *)
Definition smallOf (c2 : ascii) : string :=
  if N_of_ascii c2 <=? 159
  then twoBytes 206 (N_of_ascii c2 + 32)
  else twoBytes 207 (N_of_ascii c2 - 32).

(** Does a cased letter follow, case-ignorable characters skipped? *)
Fixpoint followedByCased (s : string) : bool :=
  match s with
  | EmptyString => false
  | String c rest =>
      if isCaseIgnorable c then followedByCased rest
      else
        isAsciiLetter c ||
        match rest with
        | String c2 _ => isGreekCapital c c2 || isGreekSmall c c2
        | EmptyString => false
        end
  end.

(** [afterCased]: a cased letter came before, with nothing but
    case-ignorable characters since. *)
Fixpoint lower (afterCased : bool) (s : string) : string :=
  match s with
  | EmptyString => EmptyString
  | String c rest =>
      if isAsciiLetter c then String (JsString.toLowerUnit c) (lower true rest)
      else if isCaseIgnorable c then String c (lower afterCased rest)
      else
        match rest with
        | String c2 rest' =>
            if isGreekCapital c c2 then
              (if isCapitalSigma c c2
               then (if afterCased && negb (followedByCased rest')
                     then finalSigma else smallSigma)
               else smallOf c2)
              ++ lower true rest'
            else if isGreekSmall c c2 then String c (String c2 (lower true rest'))
            else String c (lower false rest)
        | EmptyString => String c EmptyString
        end
  end.

Definition toLowerCase (s : string) : string := lower false s.

End AsciiGreek.

(** ** Dates

    A JavaScript [Date] holds a time value: a whole number of milliseconds
    since the epoch, or NaN (an "Invalid Date"). *)
Inductive Date : Type :=
| InvalidDate
| TimeValue (ms : Z).

(** The three date-fns functions the filter imports, on [Date] arguments:
    [isValid d] is [!isNaN(+d)], [isAfter a b] is [+a > +b] and [isBefore a b]
    is [+a < +b]; a comparison with NaN on either side is false. *)
Module DateFns.

Definition isValid (d : Date) : bool :=
  match d with
  | TimeValue _ => true
  | InvalidDate => false
  end.

Definition isAfter (date dateToCompare : Date) : bool :=
  match date, dateToCompare with
  | TimeValue a, TimeValue b => (b <? a)%Z
  | _, _ => false
  end.

Definition isBefore (date dateToCompare : Date) : bool :=
  match date, dateToCompare with
  | TimeValue a, TimeValue b => (a <? b)%Z
  | _, _ => false
  end.

End DateFns.

(** A [Date] constructor for the examples: [new Date(s)] on the date-only
    strings "YYYY-MM-DD" with a month 01..12 and a day 01..31, the form the
    specification's scenarios use: midnight UTC of that day, a day past the
    end of its month counting on into the next month.  To every other string
    it answers Invalid Date; that is the platform's answer for a string that
    is no date at all, and the examples use no other. *)
Module IsoDate.
Local Open Scope Z_scope.

Definition digit (c : ascii) : option Z :=
  let n := Z.of_nat (nat_of_ascii c) in
  if (48 <=? n) && (n <=? 57) then Some (n - 48) else None.

Definition isDash (c : ascii) : bool := Ascii.eqb c "-"%char.

(** Days from 1970-01-01 to the civil date [y]-[m]-[d]. *)
Definition daysFromCivil (y m d : Z) : Z :=
  let y' := if m <=? 2 then y - 1 else y in
  let era := y' / 400 in
  let yoe := y' - era * 400 in
  let doy := (153 * (if 2 <? m then m - 3 else m + 9) + 2) / 5 + d - 1 in
  let doe := yoe * 365 + yoe / 4 - yoe / 100 + doy in
  era * 146097 + doe - 719468.

Definition ofYMD (y m d : Z) : Date :=
  if (1 <=? m) && (m <=? 12) && (1 <=? d) && (d <=? 31)
  then TimeValue (daysFromCivil y m d * 86400000)
  else InvalidDate.

Definition parse (s : string) : Date :=
  match s with
  | String y1 (String y2 (String y3 (String y4 (String s1
      (String m1 (String m2 (String s2 (String d1 (String d2 EmptyString))))))))) =>
      match digit y1, digit y2, digit y3, digit y4,
            digit m1, digit m2, digit d1, digit d2 with
      | Some a, Some b, Some c, Some d, Some e, Some f, Some g, Some h =>
          if isDash s1 && isDash s2
          then ofYMD (a * 1000 + b * 100 + c * 10 + d) (e * 10 + f) (g * 10 + h)
          else InvalidDate
      | _, _, _, _, _, _, _, _ => InvalidDate
      end
  | _ => InvalidDate
  end.

End IsoDate.

(** ** The data model of the client list *)

(** [Client], from the fields the component reads; [?] fields are options. *)
Record Client : Type := mkClient {
  id : string;
  fullName : string;
  email : string;
  phone : string;
  companyName : option string;
  address : option string;
  notes : option string;
  tags : option (list string);
  createdAt : string
}.

Record DateRange : Type := mkDateRange {
  from : option Date;
  to : option Date
}.

(** [ClientFilterParams]: [{ search: "", tag: undefined, dateRange: undefined }]
    is the initial value, and the reset writes [{ search: "" }]. *)
Record ClientFilterParams : Type := mkFilterParams {
  search : string;
  tag : option string;
  dateRange : option DateRange
}.

Definition defaultFilterParams : ClientFilterParams :=
  {| search := ""; tag := None; dateRange := None |}.

(** Truthiness of an optional object: [undefined] is falsy, an object (also
    an Invalid Date) is truthy. *)
Definition present {A : Type} (o : option A) : bool :=
  match o with
  | Some _ => true
  | None => false
  end.

(** [Array.prototype.includes] on an array of strings. *)
Fixpoint arrayIncludes (l : list string) (x : string) : bool :=
  match l with
  | [] => false
  | y :: l' => String.eqb y x || arrayIncludes l' x
  end.

(** ** The filtering computation *)
Section Filter.

(** [String.prototype.toLowerCase], the platform's. *)
Variable toLowerCase : string -> string.

(** [new Date(client.createdAt)]: the parse is the platform's. *)
Variable newDate : string -> Date.

Variable filterParams : ClientFilterParams.

Definition searchMatch (client : Client) : bool :=
  negb (JsString.truthy (search filterParams)) ||
  JsString.includes (toLowerCase (fullName client))
                    (toLowerCase (search filterParams)) ||
  JsString.includes (toLowerCase (email client))
                    (toLowerCase (search filterParams)) ||
  match companyName client with
  | Some company =>
      JsString.includes (toLowerCase company)
                        (toLowerCase (search filterParams))
  | None => false
  end ||
  false.

Definition tagMatch (client : Client) : bool :=
  match tag filterParams with
  | None => true
  | Some t =>
      negb (JsString.truthy t) ||
      match tags client with
      | Some ts => arrayIncludes ts t
      | None => false
      end ||
      false
  end.

Definition dateMatch (client : Client) : bool :=
  match dateRange filterParams with
  | None => true
  | Some range =>
      if present (from range) || present (to range) then
        let createdDate := newDate (createdAt client) in
        let dateMatch := true in
        let dateMatch :=
          match from range with
          | Some f =>
              if DateFns.isValid f
              then dateMatch && DateFns.isAfter createdDate f
              else dateMatch
          | None => dateMatch
          end in
        let dateMatch :=
          match to range with
          | Some t =>
              if DateFns.isValid t
              then dateMatch && DateFns.isBefore createdDate t
              else dateMatch
          | None => dateMatch
          end in
        dateMatch
      else true
  end.

Definition keeps (client : Client) : bool :=
  searchMatch client && tagMatch client && dateMatch client.

Definition filteredClients (clients : list Client) : list Client :=
  List.filter keeps clients.

End Filter.

(** ** The tag vocabulary *)

(** [client.tags || []]: an array, also an empty one, is truthy. *)
Definition tagsOrEmpty (client : Client) : list string :=
  match tags client with
  | Some ts => ts
  | None => []
  end.

(** [Set.prototype.add] on the set's elements in insertion order. *)
Definition setAdd (elements : list string) (x : string) : list string :=
  if arrayIncludes elements x then elements else (elements ++ [x])%list.

(** [[...new Set(xs)]]: the elements are added one by one and read back in
    insertion order. *)
Definition spreadNewSet (xs : list string) : list string :=
  List.fold_left setAdd xs [].

(** [[...new Set(clients.flatMap(client => client.tags || []))]] *)
Definition uniqueTags (clients : list Client) : list string :=
  spreadNewSet (List.flat_map tagsOrEmpty clients).

(** The specification's sample collection. *)
Definition acme : Client :=
  {| id := "1"; fullName := "Acme Corp"; email := "a@x.com"; phone := "";
     companyName := None; address := None; notes := None;
     tags := Some ["VIP"]; createdAt := "2023-01-01" |}.

Definition beta : Client :=
  {| id := "2"; fullName := "Beta LLC"; email := "b@x.com"; phone := "";
     companyName := None; address := None; notes := None;
     tags := Some []; createdAt := "2023-06-01" |}.


(** ** Event handlers

    A handler runs against the component's state, may call out (to a prop, a
    hook, a collaborator) and either completes or lets an exception escape.
    [Run] records the three: the state the setters leave, the calls made in
    order, and the completion. *)
Inductive Completion (A : Type) : Type :=
| Normal (a : A)
| Throw (reason : string).
Arguments Normal {A} a.
Arguments Throw {A} reason.

Record Run (S E A : Type) : Type := mkRun {
  final : S;
  trace : list E;
  completion : Completion A
}.
Arguments mkRun {S E A} final trace completion.
Arguments final {S E A} r.
Arguments trace {S E A} r.
Arguments completion {S E A} r.

Definition Handler (S E A : Type) : Type := S -> Run S E A.

Section HandlerMonad.
Context {S E : Type}.

Definition ret {A} (a : A) : Handler S E A :=
  fun s => mkRun s [] (Normal a).

Definition bind {A B} (m : Handler S E A) (k : A -> Handler S E B) : Handler S E B :=
  fun s =>
    let r := m s in
    match completion r with
    | Normal a =>
        let r' := k a (final r) in
        mkRun (final r') (trace r ++ trace r')%list (completion r')
    | Throw e => mkRun (final r) (trace r) (Throw e)
    end.

(** The state the handler's closure sees. *)
Definition get : Handler S E S :=
  fun s => mkRun s [] (Normal s).

(** A [useState] setter. *)
Definition modify (f : S -> S) : Handler S E unit :=
  fun s => mkRun (f s) [] (Normal tt).

(** A call that is recorded and returns. *)
Definition emit (e : E) : Handler S E unit :=
  fun s => mkRun s [e] (Normal tt).

Definition throw {A} (reason : string) : Handler S E A :=
  fun s => mkRun s [] (Throw reason).

(** [try { body } catch (error) { handler } finally { fin }] *)
Definition tryCatchFinally (body : Handler S E unit)
    (handler : string -> Handler S E unit) (fin : Handler S E unit)
    : Handler S E unit :=
  fun s =>
    let r := body s in
    let r1 :=
      match completion r with
      | Normal _ => r
      | Throw e =>
          let r' := handler e (final r) in
          mkRun (final r') (trace r ++ trace r')%list (completion r')
      end in
    let r2 := fin (final r1) in
    mkRun (final r2) (trace r1 ++ trace r2)%list
      match completion r2 with
      | Normal _ => completion r1
      | Throw e => Throw e
      end.

End HandlerMonad.

Declare Scope handler_scope.
Delimit Scope handler_scope with handler.
Notation "x <- m ;; k" := (bind m (fun x => k))
  (at level 100, m at next level, right associativity) : handler_scope.
Notation "m ;; k" := (bind m (fun _ => k))
  (at level 100, right associativity) : handler_scope.

(** What a call to [onEditClient] or [onDeleteClient] does, as its caller
    sees it.  Both props are typed [=> void] and the handlers await nothing:
    an operation that fails after the call has returned (a rejected promise)
    is a normal return to them, [Returned false]; only an exception thrown
    during the call reaches the handler. *)
Inductive Outcome : Type :=
| Returned (succeeded : bool)
| Thrown (reason : string).

(** ** The selection state of [ClientList] *)
Module ClientList.
Local Open Scope handler_scope.

(** The four [useState] cells. *)
Record State : Type := mkState {
  filterParams : ClientFilterParams;
  showFilters : bool;
  clientToDelete : option Client;
  showDetails : option string
}.

Definition initialState : State :=
  {| filterParams := defaultFilterParams; showFilters := false;
     clientToDelete := None; showDetails := None |}.

Definition setClientToDelete (v : option Client) (s : State) : State :=
  {| filterParams := filterParams s; showFilters := showFilters s;
     clientToDelete := v; showDetails := showDetails s |}.

Definition setShowDetails (v : option string) (s : State) : State :=
  {| filterParams := filterParams s; showFilters := showFilters s;
     clientToDelete := clientToDelete s; showDetails := v |}.

(** Calls to the two props. *)
Inductive Call : Type :=
| EditClient (client : Client)
| DeleteClient (clientId : string).

(** [c.id === showDetails], with [showDetails : string | null]. *)
Definition idIs (showDetails : option string) (clientId : string) : bool :=
  match showDetails with
  | Some shown => String.eqb clientId shown
  | None => false
  end.

Section Props.
Variable clients : list Client.
Variable onEditClient : Client -> Outcome.
Variable onDeleteClient : string -> Outcome.

Definition callEdit (client : Client) : Handler State Call unit :=
  emit (EditClient client) ;;
  match onEditClient client with
  | Returned _ => ret tt
  | Thrown reason => throw reason
  end.

Definition callDelete (clientId : string) : Handler State Call unit :=
  emit (DeleteClient clientId) ;;
  match onDeleteClient clientId with
  | Returned _ => ret tt
  | Thrown reason => throw reason
  end.

(** A click on a cell of [client]'s row. *)
Definition rowClick (client : Client) : Handler State Call unit :=
  s <- get ;;
  modify (setShowDetails
            (if idIs (showDetails s) (id client) then None else Some (id client))).

(** The trash button of a row. *)
Definition deleteClick (client : Client) : Handler State Call unit :=
  modify (setClientToDelete (Some client)).

(** Cancel in the confirmation dialog. *)
Definition cancelDelete : Handler State Call unit :=
  modify (setClientToDelete None).

(** Delete in the confirmation dialog. *)
Definition confirmDelete : Handler State Call unit :=
  s <- get ;;
  match clientToDelete s with
  | Some c =>
      callDelete (id c) ;;
      modify (setClientToDelete None)
  | None => ret tt
  end.

(** Close in the details dialog. *)
Definition closeDetails : Handler State Call unit :=
  modify (setShowDetails None).

(** [clients.find(c => c.id === showDetails)] *)
Definition shownClient (s : State) : option Client :=
  List.find (fun c => idIs (showDetails s) (id c)) clients.

(** The guard around the body of the details dialog:
    [showDetails && clients.find(...)]. *)
Definition detailsRendered (s : State) : bool :=
  match showDetails s with
  | Some shown => JsString.truthy shown && present (shownClient s)
  | None => false
  end.

(** Edit Client in the details dialog. *)
Definition editClick : Handler State Call unit :=
  s <- get ;;
  match shownClient s with
  | Some client =>
      callEdit client ;;
      modify (setShowDetails None)
  | None => ret tt
  end.

End Props.

(** *** The filter controls and the remaining dialog handlers *)

Definition setFilterParams (v : ClientFilterParams) (s : State) : State :=
  {| filterParams := v; showFilters := showFilters s;
     clientToDelete := clientToDelete s; showDetails := showDetails s |}.

Definition setShowFilters (v : bool) (s : State) : State :=
  {| filterParams := filterParams s; showFilters := v;
     clientToDelete := clientToDelete s; showDetails := showDetails s |}.

(** [onChange] of the search box: [{...filterParams, search: e.target.value}] *)
Definition searchChange (value : string) : Handler State Call unit :=
  s <- get ;;
  modify (setFilterParams
            {| search := value; tag := tag (filterParams s);
               dateRange := dateRange (filterParams s) |}).

(** The Filters button. *)
Definition filtersClick : Handler State Call unit :=
  s <- get ;;
  modify (setShowFilters (negb (showFilters s))).

(** All Tags in the tag menu: [{...filterParams, tag: undefined}] *)
Definition allTagsClick : Handler State Call unit :=
  s <- get ;;
  modify (setFilterParams
            {| search := search (filterParams s); tag := None;
               dateRange := dateRange (filterParams s) |}).

(** A tag of the tag menu: [{...filterParams, tag}] *)
Definition tagClick (t : string) : Handler State Call unit :=
  s <- get ;;
  modify (setFilterParams
            {| search := search (filterParams s); tag := Some t;
               dateRange := dateRange (filterParams s) |}).

(** The bounds a spread of [filterParams.dateRange] copies; spreading
    [undefined] copies nothing. *)
Definition spreadFrom (r : option DateRange) : option Date :=
  match r with
  | Some range => from range
  | None => None
  end.

Definition spreadTo (r : option DateRange) : option Date :=
  match r with
  | Some range => to range
  | None => None
  end.

(** [onSelect] of the From calendar, with the day picked or [undefined]:
    [dateRange: {...filterParams.dateRange, from: date}] *)
Definition fromSelect (date : option Date) : Handler State Call unit :=
  s <- get ;;
  modify (setFilterParams
            {| search := search (filterParams s); tag := tag (filterParams s);
               dateRange :=
                 Some {| from := date;
                         to := spreadTo (dateRange (filterParams s)) |} |}).

(** [onSelect] of the To calendar. *)
Definition toSelect (date : option Date) : Handler State Call unit :=
  s <- get ;;
  modify (setFilterParams
            {| search := search (filterParams s); tag := tag (filterParams s);
               dateRange :=
                 Some {| from := spreadFrom (dateRange (filterParams s));
                         to := date |} |}).

(** Reset Filters: [setFilterParams({ search: "" })] *)
Definition resetClick : Handler State Call unit :=
  modify (setFilterParams {| search := ""; tag := None; dateRange := None |}).

(** [onOpenChange] of the confirmation dialog:
    [(isOpen) => !isOpen && setClientToDelete(null)] *)
Definition deleteDialogOpenChange (isOpen : bool) : Handler State Call unit :=
  if negb isOpen then modify (setClientToDelete None) else ret tt.

(** [onOpenChange] of the details dialog. *)
Definition detailsDialogOpenChange (isOpen : bool) : Handler State Call unit :=
  if negb isOpen then modify (setShowDetails None) else ret tt.

(** [open={!!clientToDelete}] and [open={!!showDetails}] *)
Definition deleteDialogOpen (s : State) : bool := present (clientToDelete s).

Definition detailsDialogOpen (s : State) : bool :=
  match showDetails s with
  | Some shown => JsString.truthy shown
  | None => false
  end.

(** Recognisers, for counting calls and actions. *)
Definition isDeleteCall (call : Call) : bool :=
  match call with
  | DeleteClient _ => true
  | EditClient _ => false
  end.

(** The user's actions on the list, one per handler. *)
Inductive Action : Type :=
| SearchChange (value : string)
| FiltersClick
| AllTagsClick
| TagClick (t : string)
| FromSelect (date : option Date)
| ToSelect (date : option Date)
| ResetClick
| RowClick (client : Client)
| RowEditClick (client : Client)
| DeleteClick (client : Client)
| CancelDelete
| ConfirmDelete
| DeleteDialogOpenChange (isOpen : bool)
| CloseDetails
| EditClick
| DetailsDialogOpenChange (isOpen : bool).

Definition isConfirmDelete (a : Action) : bool :=
  match a with
  | ConfirmDelete => true
  | _ => false
  end.

Section Session.
Variable clients : list Client.
Variable onEditClient : Client -> Outcome.
Variable onDeleteClient : string -> Outcome.

(** The pencil button of a row: [onEditClient(client)] *)
Definition rowEditClick (client : Client) : Handler State Call unit :=
  callEdit onEditClient client.

Definition handle (a : Action) : Handler State Call unit :=
  match a with
  | SearchChange value => searchChange value
  | FiltersClick => filtersClick
  | AllTagsClick => allTagsClick
  | TagClick t => tagClick t
  | FromSelect date => fromSelect date
  | ToSelect date => toSelect date
  | ResetClick => resetClick
  | RowClick client => rowClick client
  | RowEditClick client => rowEditClick client
  | DeleteClick client => deleteClick client
  | CancelDelete => cancelDelete
  | ConfirmDelete => confirmDelete onDeleteClient
  | DeleteDialogOpenChange isOpen => deleteDialogOpenChange isOpen
  | CloseDetails => closeDetails
  | EditClick => editClick clients onEditClient
  | DetailsDialogOpenChange isOpen => detailsDialogOpenChange isOpen
  end.

(** A run of actions: each handler sees the state the one before left; an
    exception that leaves a handler ends that handler only.  The result is
    the last state and all the calls made. *)
Fixpoint session (actions : list Action) (s : State) : State * list Call :=
  match actions with
  | [] => (s, [])
  | a :: rest =>
      let r := handle a s in
      let (s', calls) := session rest (final r) in
      (s', (trace r ++ calls)%list)
  end.

End Session.
End ClientList.

(** ** The login form *)
Module Login.
Local Open Scope handler_scope.

Record State : Type := mkState {
  email : string;
  password : string;
  isLoading : bool
}.

Definition setIsLoading (v : bool) (s : State) : State :=
  {| email := email s; password := password s; isLoading := v |}.

Record ToastArgs : Type := mkToast {
  title : string;
  description : string;
  variant : option string
}.

Inductive Call : Type :=
| PreventDefault
| Toast (args : ToastArgs)
| LoginCall (email password : string)
| Navigate (path : string).

(** How the promise of [login(email, password)] settles; a [login] that
    throws before it returns a promise is [Rejects] to the [try] block. *)
Inductive Settlement : Type :=
| Resolves
| Rejects (reason : string).



Definition missingFieldsToast : ToastArgs :=
  {| title := "Error"; description := "Please enter both email and password";
     variant := Some "destructive" |}.

Definition successToast : ToastArgs :=
  {| title := "Success"; description := "You have successfully logged in";
     variant := None |}.

Definition failureToast : ToastArgs :=
  {| title := "Error";
     description := "Failed to log in. Please check your credentials.";
     variant := Some "destructive" |}.

Section Collaborators.
Variable login : string -> string -> Settlement.

(** [await login(email, password)] *)
Definition awaitLogin (e p : string) : Handler State Call unit :=
  emit (LoginCall e p) ;;
  match login e p with
  | Resolves => ret tt
  | Rejects reason => throw reason
  end.

Definition handleLogin : Handler State Call unit :=
  emit PreventDefault ;;
  modify (setIsLoading true) ;;
  s <- get ;;
  if negb (JsString.truthy (email s)) || negb (JsString.truthy (password s)) then
    emit (Toast missingFieldsToast) ;;
    modify (setIsLoading false)
  else
    tryCatchFinally
      (awaitLogin (email s) (password s) ;;
       emit (Toast successToast) ;;
       emit (Navigate "/dashboard"))
      (fun error => emit (Toast failureToast))
      (modify (setIsLoading false)).




End Collaborators.
End Login.

(** ** The specification's predicates

    The search and tag conditions as the specification words them, to compare
    with [searchMatch] and [tagMatch]. *)

(** [s] is a case-insensitive substring of the full name, of the email, or of
    a company name that is there. *)
Definition matchesSearch (toLowerCase : string -> string)
    (s : string) (c : Client) : Prop :=
  JsString.containsIgnoringCase toLowerCase (fullName c) s \/
  JsString.containsIgnoringCase toLowerCase (email c) s \/
  exists company,
    companyName c = Some company /\
    JsString.containsIgnoringCase toLowerCase company s.

(** The lower-cased [s] occurs in the lower-cased full name, email, or
    company name that is there. *)
Definition matchesLowered (toLowerCase : string -> string)
    (s : string) (c : Client) : Prop :=
  JsString.occursIn (toLowerCase s) (toLowerCase (fullName c)) \/
  JsString.occursIn (toLowerCase s) (toLowerCase (email c)) \/
  exists company,
    companyName c = Some company /\
    JsString.occursIn (toLowerCase s) (toLowerCase company).

(** The three searched fields are ASCII text. *)
Definition asciiFields (c : Client) : Prop :=
  JsString.isAscii (fullName c) = true /\
  JsString.isAscii (email c) = true /\
  forall company, companyName c = Some company -> JsString.isAscii company = true.

(** A second client with the id of [beta]. *)
Definition betaTwo : Client :=
  {| id := "2"; fullName := "Beta Two"; email := "b2@x.com"; phone := "";
     companyName := None; address := None; notes := None;
     tags := None; createdAt := "2023-07-01" |}.

(** A client whose name is capital alpha, capital sigma. *)
Definition alphaSigma : Client :=
  {| id := "4"; fullName := AsciiGreek.capitalAlpha ++ AsciiGreek.capitalSigma;
     email := "as@x.com"; phone := "";
     companyName := None; address := None; notes := None;
     tags := None; createdAt := "2023-01-01" |}.

(** The client has a tag sequence and [t] itself is one of its members. *)
Definition carriesTag (t : string) (c : Client) : Prop :=
  exists ts, tags c = Some ts /\ In t ts.

(** A client without tags, for the examples. *)
Definition untagged : Client :=
  {| id := "3"; fullName := "Gamma Inc"; email := "g@x.com"; phone := "";
     companyName := Some "Gamma Holdings"; address := None; notes := None;
     tags := None; createdAt := "not a date" |}.

(** * Properties *)

Section JsStringFacts.
Import JsString.

Lemma JsString_truthy_nonempty s : truthy s = true <-> s <> "".
Proof. destruct s; simpl; split; congruence. Qed.

Lemma startsWith_spec s p :
  startsWith s p = true <-> exists post, s = p ++ post.
Proof.
  revert s. induction p as [|b p IH]; intros s; simpl.
  - split; [intros _; now exists s | reflexivity].
  - destruct s as [|a s].
    + split; [discriminate | intros [post H]; discriminate].
    + rewrite andb_true_iff, Ascii.eqb_eq, IH. split.
      * intros [-> [post ->]]. now exists post.
      * intros [post H]. injection H as -> ->. split; [reflexivity | now exists post].
Qed.

Lemma includes_spec s p :
  includes s p = true <-> exists pre post, s = pre ++ p ++ post.
Proof.
  induction s as [|a s IH].
  - simpl. rewrite orb_false_r, startsWith_spec. split.
    + intros [post H]. now exists "", post.
    + intros [pre [post H]]. destruct pre; [now exists post | discriminate].
  - cbn [includes]. rewrite orb_true_iff, startsWith_spec, IH. split.
    + intros [[post H] | [pre [post H]]].
      * now exists "", post.
      * exists (String a pre), post. simpl. now rewrite H.
    + intros [pre [post H]]. destruct pre as [|a' pre].
      * left. now exists post.
      * right. simpl in H. injection H as _ H. now exists pre, post.
Qed.

Lemma includes_occursIn s p : includes s p = true <-> occursIn p s.
Proof. apply includes_spec. Qed.

Lemma asciiToLowerCase_app s t :
  asciiToLowerCase (s ++ t) = asciiToLowerCase s ++ asciiToLowerCase t.
Proof. induction s as [|a s IH]; simpl; [reflexivity | now rewrite IH]. Qed.

Lemma isAscii_app s t : isAscii (s ++ t) = isAscii s && isAscii t.
Proof.
  induction s as [|a s IH]; simpl; [reflexivity|].
  now rewrite IH, andb_assoc.
Qed.

Lemma forBool_spec f : forBool f = true -> forall b, f b = true.
Proof.
  unfold forBool. intros H b. apply andb_true_iff in H.
  destruct b; tauto.
Qed.

Lemma forUnit_spec f : forUnit f = true -> forall a, f a = true.
Proof.
  intros H [b0 b1 b2 b3 b4 b5 b6 b7]. unfold forUnit in H.
  apply forBool_spec with (b := b0) in H. apply forBool_spec with (b := b1) in H.
  apply forBool_spec with (b := b2) in H. apply forBool_spec with (b := b3) in H.
  apply forBool_spec with (b := b4) in H. apply forBool_spec with (b := b5) in H.
  apply forBool_spec with (b := b6) in H. apply forBool_spec with (b := b7) in H.
  exact H.
Qed.

Lemma sameLetterb_spec a b : sameLetterb a b = true <-> sameLetter a b.
Proof.
  unfold sameLetterb, sameLetter, capitalOf.
  rewrite !orb_true_iff, !andb_true_iff, Ascii.eqb_eq, !N.eqb_eq. tauto.
Qed.

(** Checked on all 65536 pairs of units. *)
Lemma sameLetterb_toLowerUnit a b :
  sameLetterb a b = Ascii.eqb (toLowerUnit a) (toLowerUnit b).
Proof.
  apply Bool.eqb_prop.
  assert (H : forUnit (fun x => forUnit (fun y =>
                Bool.eqb (sameLetterb x y)
                         (Ascii.eqb (toLowerUnit x) (toLowerUnit y)))) = true)
    by (vm_compute; reflexivity).
  pose proof (forUnit_spec _ H a) as Ha. cbv beta in Ha.
  exact (forUnit_spec _ Ha b).
Qed.

Lemma sameLetter_toLowerUnit a b :
  sameLetter a b <-> toLowerUnit a = toLowerUnit b.
Proof.
  rewrite <- sameLetterb_spec, sameLetterb_toLowerUnit. apply Ascii.eqb_eq.
Qed.

Lemma sameLetters_asciiToLowerCase u p :
  sameLetters u p <-> asciiToLowerCase u = asciiToLowerCase p.
Proof.
  split.
  - induction 1 as [|a b u v Hab _ IH]; simpl; [reflexivity|].
    apply sameLetter_toLowerUnit in Hab. now rewrite Hab, IH.
  - revert p. induction u as [|a u IH]; intros [|b p] H; simpl in H;
      try discriminate; [constructor|].
    injection H as Hab H. constructor; [now apply sameLetter_toLowerUnit | now apply IH].
Qed.

(** A lower-cased ASCII string that splits in three is the lower-casing of a
    three-way split of the original. *)
Lemma asciiToLowerCase_split s x y z :
  asciiToLowerCase s = x ++ y ++ z ->
  exists pre u post,
    s = pre ++ u ++ post /\ asciiToLowerCase pre = x /\
    asciiToLowerCase u = y /\ asciiToLowerCase post = z.
Proof.
  revert s. induction x as [|c x IHx]; intros s H.
  - simpl in H. revert s H. induction y as [|c y IHy]; intros s H.
    + exists "", "", s. simpl in *. auto.
    + destruct s as [|a s]; simpl in H; [discriminate|].
      injection H as Hc H. destruct (IHy _ H) as (pre & u & post & Hs & Hpre & Hu & Hpost).
      destruct pre; [|discriminate]. simpl in Hs.
      exists "", (String a u), post. simpl. rewrite Hs, Hc, Hu. auto.
  - destruct s as [|a s]; simpl in H; [discriminate|].
    injection H as Hc H. destruct (IHx _ H) as (pre & u & post & Hs & Hpre & Hu & Hpost).
    exists (String a pre), u, post. simpl. rewrite Hs, Hc, Hpre. auto.
Qed.

(** On ASCII text, lower-casing both sides and searching decides
    [containsIgnoringCase]. *)
Lemma includes_asciiToLowerCase s p :
  includes (asciiToLowerCase s) (asciiToLowerCase p) = true <->
  containsIgnoringCase asciiToLowerCase s p.
Proof.
  rewrite includes_spec. unfold containsIgnoringCase. split.
  - intros (x & z & H). apply asciiToLowerCase_split in H.
    destruct H as (pre & u & post & Hs & _ & Hu & _).
    now exists pre, u, post.
  - intros (pre & u & post & Hs & Hu).
    exists (asciiToLowerCase pre), (asciiToLowerCase post).
    now rewrite Hs, !asciiToLowerCase_app, Hu.
Qed.

Lemma asciiFaithful_contains lower s p :
  asciiFaithful lower -> isAscii s = true -> isAscii p = true ->
  includes (lower s) (lower p) = true <-> containsIgnoringCase lower s p.
Proof.
  intros Hf Hs Hp. rewrite (Hf s Hs), (Hf p Hp), includes_asciiToLowerCase.
  unfold containsIgnoringCase. split; intros (pre & u & post & Heq & Hu);
    exists pre, u, post; (split; [exact Heq|]).
  - rewrite Heq, !isAscii_app, !andb_true_iff in Hs.
    now rewrite (Hf u (proj1 (proj2 Hs))), (Hf p Hp).
  - rewrite Heq, !isAscii_app, !andb_true_iff in Hs.
    now rewrite <- (Hf u (proj1 (proj2 Hs))), <- (Hf p Hp).
Qed.

Lemma toLowerUnit_not_letter c :
  AsciiGreek.isAsciiLetter c = false -> toLowerUnit c = c.
Proof.
  unfold AsciiGreek.isAsciiLetter, toLowerUnit, isUpperUnit. cbv zeta.
  intros H. apply orb_false_iff in H. destruct H as [H _]. now rewrite H.
Qed.

Lemma AsciiGreek_lower_ascii s : forall afterCased,
  isAscii s = true -> AsciiGreek.lower afterCased s = asciiToLowerCase s.
Proof.
  induction s as [|c rest IH]; intros afterCased Hs; [reflexivity|].
  cbn [isAscii] in Hs. apply andb_true_iff in Hs. destruct Hs as [Hc Hrest].
  cbn [AsciiGreek.lower asciiToLowerCase].
  destruct (AsciiGreek.isAsciiLetter c) eqn:Hl; [now rewrite IH|].
  rewrite (toLowerUnit_not_letter c Hl).
  destruct (AsciiGreek.isCaseIgnorable c); [now rewrite IH|].
  destruct rest as [|c2 rest']; [reflexivity|].
  assert (Hne : (N_of_ascii c =? 206)%N = false /\ (N_of_ascii c =? 207)%N = false).
  { apply N.ltb_lt in Hc. split; apply N.eqb_neq; lia. }
  destruct Hne as [H206 H207].
  unfold AsciiGreek.isGreekCapital, AsciiGreek.isGreekSmall.
  rewrite H206, H207. cbn [andb orb]. now rewrite (IH false Hrest).
Qed.

Lemma AsciiGreek_asciiFaithful : asciiFaithful AsciiGreek.toLowerCase.
Proof. intros s Hs. now apply AsciiGreek_lower_ascii. Qed.

End JsStringFacts.
Example iso_2023_01_01 : IsoDate.parse "2023-01-01" = TimeValue 1672531200000.
Proof. reflexivity. Qed.

Example iso_2023_02_30 : IsoDate.parse "2023-02-30" = IsoDate.parse "2023-03-02".
Proof. reflexivity. Qed.

Example iso_not_a_date : IsoDate.parse "not a date" = InvalidDate.
Proof. reflexivity. Qed.

Example lower_final_sigma :
  AsciiGreek.toLowerCase (AsciiGreek.capitalAlpha ++ AsciiGreek.capitalSigma) =
  AsciiGreek.smallAlpha ++ AsciiGreek.finalSigma.
Proof. reflexivity. Qed.

Example lower_inner_sigma :
  AsciiGreek.toLowerCase
    (AsciiGreek.capitalAlpha ++ AsciiGreek.capitalSigma ++ AsciiGreek.capitalAlpha) =
  AsciiGreek.smallAlpha ++ AsciiGreek.smallSigma ++ AsciiGreek.smallAlpha.
Proof. reflexivity. Qed.

Example lower_ascii : AsciiGreek.toLowerCase "Beta LLC, it's 42" = "beta llc, it's 42".
Proof. reflexivity. Qed.

Example scenario_tag :
  filteredClients AsciiGreek.toLowerCase IsoDate.parse
    {| search := ""; tag := Some "VIP"; dateRange := None |} [acme; beta] = [acme].
Proof. reflexivity. Qed.

Example scenario_search :
  filteredClients AsciiGreek.toLowerCase IsoDate.parse
    {| search := "beta"; tag := None; dateRange := None |} [acme; beta] = [beta].
Proof. reflexivity. Qed.

Example scenario_from :
  filteredClients AsciiGreek.toLowerCase IsoDate.parse
    {| search := ""; tag := None;
       dateRange := Some {| from := Some (IsoDate.parse "2023-03-01"); to := None |} |}
    [acme; beta] = [beta].
Proof. reflexivity. Qed.

(** ** The filtering computation *)
Lemma arrayIncludes_In l x : arrayIncludes l x = true <-> In x l.
Proof.
  induction l as [|y l IH]; simpl.
  - split; [discriminate | contradiction].
  - rewrite orb_true_iff, String.eqb_eq, IH. tauto.
Qed.

Lemma searchMatch_lowered (toLowerCase : string -> string) fp c :
  search fp <> "" ->
  searchMatch toLowerCase fp c = true <-> matchesLowered toLowerCase (search fp) c.
Proof.
  intros Hs. apply JsString_truthy_nonempty in Hs.
  unfold searchMatch, matchesLowered. rewrite Hs. cbn [negb orb].
  rewrite orb_false_r, !orb_true_iff, !includes_occursIn.
  destruct (companyName c) as [company|].
  - rewrite includes_occursIn. split.
    + intros [[H | H] | H]; auto. right; right. now exists company.
    + intros [H | [H | (company' & Heq & H)]]; auto.
      injection Heq as ->. auto.
  - split.
    + intros [[H | H] | H]; auto. discriminate.
    + intros [H | [H | (company' & Heq & H)]]; auto. discriminate.
Qed.

Lemma searchMatch_ascii (toLowerCase : string -> string) fp c :
  JsString.asciiFaithful toLowerCase ->
  JsString.isAscii (search fp) = true -> asciiFields c ->
  search fp <> "" ->
  searchMatch toLowerCase fp c = true <-> matchesSearch toLowerCase (search fp) c.
Proof.
  intros Hf Hsa (Hname & Hemail & Hcompany) Hs. apply JsString_truthy_nonempty in Hs.
  unfold searchMatch, matchesSearch. rewrite Hs. cbn [negb orb].
  rewrite orb_false_r, !orb_true_iff.
  rewrite (asciiFaithful_contains toLowerCase _ _ Hf Hname Hsa).
  rewrite (asciiFaithful_contains toLowerCase _ _ Hf Hemail Hsa).
  destruct (companyName c) as [company|].
  - rewrite (asciiFaithful_contains toLowerCase _ _ Hf (Hcompany company eq_refl) Hsa).
    split.
    + intros [[H | H] | H]; auto. right; right. now exists company.
    + intros [H | [H | (company' & Heq & H)]]; auto.
      injection Heq as ->. auto.
  - split.
    + intros [[H | H] | H]; auto. discriminate.
    + intros [H | [H | (company' & Heq & H)]]; auto. discriminate.
Qed.

Lemma tagMatch_nonempty fp t c :
  tag fp = Some t -> t <> "" ->
  tagMatch fp c = true <-> carriesTag t c.
Proof.
  intros Ht Hne. apply JsString_truthy_nonempty in Hne.
  unfold tagMatch, carriesTag. rewrite Ht, Hne. cbn [negb orb].
  rewrite orb_false_r. destruct (tags c) as [ts|].
  - rewrite arrayIncludes_In. split.
    + intros H. now exists ts.
    + intros (ts' & Heq & H). now injection Heq as ->.
  - split; [discriminate | intros (ts' & Heq & _); discriminate].
Qed.

Lemma filter_sublist {A} (f : A -> bool) (l : list A) :
  sublist (List.filter f l) l.
Proof.
  induction l as [|x l IH]; simpl.
  - constructor.
  - destruct (f x); now constructor.
Qed.

Lemma filter_all {A} (f : A -> bool) (l : list A) :
  (forall x, f x = true) -> List.filter f l = l.
Proof.
  intros Hf. induction l as [|x l IH]; simpl; [reflexivity|].
  now rewrite Hf, IH.
Qed.

Section FilterFacts.
Variable toLowerCase : string -> string.
Variable newDate : string -> Date.

Lemma filteredClients_In fp clients c :
  In c (filteredClients toLowerCase newDate fp clients) <->
  In c clients /\ searchMatch toLowerCase fp c = true /\ tagMatch fp c = true /\
  dateMatch newDate fp c = true.
Proof.
  unfold filteredClients, keeps.
  rewrite filter_In, !andb_true_iff. tauto.
Qed.

Lemma dateMatch_both fp c d1 d2 :
  dateRange fp = Some {| from := Some (TimeValue d1); to := Some (TimeValue d2) |} ->
  dateMatch newDate fp c =
  DateFns.isAfter (newDate (createdAt c)) (TimeValue d1) &&
  DateFns.isBefore (newDate (createdAt c)) (TimeValue d2).
Proof. intros H. unfold dateMatch. rewrite H. reflexivity. Qed.

End FilterFacts.

(** C1, as amended.  With a non-empty search string [s], the clients the
    filter returns are exactly the clients of the collection for which the
    lower-cased [s] occurs in the lower-cased full name, email or company
    name and that pass the tag and date filters: every returned client
    matches, and no such client is left out.  A client without a company
    name is returned only on the strength of its name or email.  When [s]
    and the three fields are ASCII text this is the claim as it stands: the
    clients returned are exactly those that have [s] as a case-insensitive
    substring of one of the fields. *)
Theorem search_filter_exact (toLowerCase : string -> string) (newDate : string -> Date)
    (fp : ClientFilterParams) (clients : list Client) :
  search fp <> "" ->
  (forall c,
     In c (filteredClients toLowerCase newDate fp clients) <->
     In c clients /\ matchesLowered toLowerCase (search fp) c /\
     tagMatch fp c = true /\ dateMatch newDate fp c = true) /\
  (forall c,
     companyName c = None -> In c (filteredClients toLowerCase newDate fp clients) ->
     JsString.occursIn (toLowerCase (search fp)) (toLowerCase (fullName c)) \/
     JsString.occursIn (toLowerCase (search fp)) (toLowerCase (email c))) /\
  (JsString.asciiFaithful toLowerCase -> JsString.isAscii (search fp) = true ->
   forall c, asciiFields c ->
     (In c (filteredClients toLowerCase newDate fp clients) <->
      In c clients /\ matchesSearch toLowerCase (search fp) c /\
      tagMatch fp c = true /\ dateMatch newDate fp c = true)).
Proof.
  intros Hs.
  assert (Hin : forall c,
     In c (filteredClients toLowerCase newDate fp clients) <->
     In c clients /\ matchesLowered toLowerCase (search fp) c /\
     tagMatch fp c = true /\ dateMatch newDate fp c = true).
  { intros c. rewrite filteredClients_In, (searchMatch_lowered toLowerCase fp c Hs).
    tauto. }
  split; [exact Hin|]. split.
  - intros c Hnone Hc. apply Hin in Hc.
    destruct Hc as (_ & [H | [H | (company & Heq & _)]] & _); auto.
    congruence.
  - intros Hf Hsa c Hc.
    rewrite filteredClients_In, (searchMatch_ascii toLowerCase fp c Hf Hsa Hc Hs).
    tauto.
Qed.

Lemma search_filter_exact_witness :
  In beta (filteredClients AsciiGreek.toLowerCase IsoDate.parse
             {| search := "BETA"; tag := None; dateRange := None |} [acme; beta]) <->
  In beta [acme; beta] /\ matchesSearch AsciiGreek.toLowerCase "BETA" beta /\
  tagMatch {| search := "BETA"; tag := None; dateRange := None |} beta = true /\
  dateMatch IsoDate.parse {| search := "BETA"; tag := None; dateRange := None |} beta = true.
Proof.
  refine (proj2 (proj2 (search_filter_exact AsciiGreek.toLowerCase IsoDate.parse
                   {| search := "BETA"; tag := None; dateRange := None |}
                   [acme; beta] _)) AsciiGreek_asciiFaithful _ beta _).
  - simpl. discriminate.
  - reflexivity.
  - repeat split. intros company H. discriminate.
Defined.

(** C1 as stated fails on text whose lower-casing depends on the position
    of a letter.  The client named capital alpha, capital sigma has the
    small sigma as a case-insensitive substring of its name (the piece
    capital sigma lower-cases to it) and passes the other filters, but the
    whole name lower-cases to small alpha, final sigma, in which the small
    sigma does not occur: the client is not returned. *)
Lemma search_filter_misses_final_sigma :
  In alphaSigma [alphaSigma] /\
  matchesSearch AsciiGreek.toLowerCase AsciiGreek.smallSigma alphaSigma /\
  tagMatch {| search := AsciiGreek.smallSigma; tag := None; dateRange := None |}
    alphaSigma = true /\
  dateMatch IsoDate.parse
    {| search := AsciiGreek.smallSigma; tag := None; dateRange := None |}
    alphaSigma = true /\
  ~ In alphaSigma
      (filteredClients AsciiGreek.toLowerCase IsoDate.parse
         {| search := AsciiGreek.smallSigma; tag := None; dateRange := None |}
         [alphaSigma]).
Proof.
  split; [now left|]. split.
  - left. exists AsciiGreek.capitalAlpha, AsciiGreek.capitalSigma, "".
    split; reflexivity.
  - repeat split. intros H. vm_compute in H. exact H.
Qed.

(** C2, as amended.  With a non-empty tag filter [t], the clients the filter
    returns are exactly the clients of the collection whose tag sequence has
    [t] itself as a member and that pass the search and date filters; with
    the search empty and no date range that is the whole set of clients
    carrying [t].  A client without a tag sequence is never returned. *)
Theorem tag_filter_exact (toLowerCase : string -> string) (newDate : string -> Date)
    (fp : ClientFilterParams) (clients : list Client) (t : string) :
  tag fp = Some t -> t <> "" ->
  (forall c,
     In c (filteredClients toLowerCase newDate fp clients) <->
     In c clients /\ carriesTag t c /\
     searchMatch toLowerCase fp c = true /\ dateMatch newDate fp c = true) /\
  (search fp = "" -> dateRange fp = None ->
   forall c, In c (filteredClients toLowerCase newDate fp clients) <->
             In c clients /\ carriesTag t c) /\
  (forall c, tags c = None -> ~ In c (filteredClients toLowerCase newDate fp clients)).
Proof.
  intros Ht Hne.
  assert (Hin : forall c,
     In c (filteredClients toLowerCase newDate fp clients) <->
     In c clients /\ carriesTag t c /\
     searchMatch toLowerCase fp c = true /\ dateMatch newDate fp c = true).
  { intros c. rewrite filteredClients_In, (tagMatch_nonempty fp t c Ht Hne). tauto. }
  split; [exact Hin|]. split.
  - intros Hs Hd c. rewrite Hin. unfold searchMatch, dateMatch.
    rewrite Hs, Hd. simpl. tauto.
  - intros c Hnone Hc. apply Hin in Hc.
    destruct Hc as (_ & (ts & Heq & _) & _). congruence.
Qed.

Lemma tag_filter_exact_witness :
  In acme (filteredClients AsciiGreek.toLowerCase IsoDate.parse
             {| search := ""; tag := Some "VIP"; dateRange := None |}
             [acme; beta; untagged]) <->
  In acme [acme; beta; untagged] /\ carriesTag "VIP" acme.
Proof.
  refine (proj1 (proj2 (tag_filter_exact AsciiGreek.toLowerCase IsoDate.parse
            {| search := ""; tag := Some "VIP"; dateRange := None |}
            [acme; beta; untagged] "VIP" _ _)) _ _ acme).
  - reflexivity.
  - discriminate.
  - reflexivity.
  - reflexivity.
Defined.

(** C2 as stated fails twice.  A client carrying the tag is dropped when the
    search does not match it, so the result is not the whole set of clients
    carrying the tag; and the empty string as tag filter filters nothing, so
    a client without tags is returned. *)
Lemma tag_filter_not_exact :
  (In acme [acme; beta] /\ carriesTag "VIP" acme /\
   ~ In acme (filteredClients AsciiGreek.toLowerCase IsoDate.parse
                {| search := "zzz"; tag := Some "VIP"; dateRange := None |}
                [acme; beta])) /\
  (tags untagged = None /\
   In untagged (filteredClients AsciiGreek.toLowerCase IsoDate.parse
                  {| search := ""; tag := Some ""; dateRange := None |}
                  [acme; untagged])).
Proof.
  split.
  - split; [now left|]. split.
    + exists ["VIP"]. split; [reflexivity | now left].
    + simpl. tauto.
  - split; [reflexivity|]. simpl. auto.
Qed.

(** C3.  With a date range whose bounds [D1 < D2] are both valid, every
    returned client has a valid [createdAt] strictly after [D1] and strictly
    before [D2]; a client created exactly at a bound is not returned; and the
    date test is the conjunction of the two strict comparisons. *)
Theorem date_range_strict (toLowerCase : string -> string) (newDate : string -> Date)
    (fp : ClientFilterParams) (clients : list Client) (D1 D2 : Z) :
  dateRange fp = Some {| from := Some (TimeValue D1); to := Some (TimeValue D2) |} ->
  (D1 < D2)%Z ->
  forall c,
    (In c (filteredClients toLowerCase newDate fp clients) ->
     exists t, newDate (createdAt c) = TimeValue t /\ (D1 < t < D2)%Z) /\
    (newDate (createdAt c) = TimeValue D1 \/ newDate (createdAt c) = TimeValue D2 ->
     ~ In c (filteredClients toLowerCase newDate fp clients)) /\
    dateMatch newDate fp c =
      DateFns.isAfter (newDate (createdAt c)) (TimeValue D1) &&
      DateFns.isBefore (newDate (createdAt c)) (TimeValue D2).
Proof.
  intros Hr _ c. pose proof (dateMatch_both newDate fp c D1 D2 Hr) as Hd.
  split; [|split; [|exact Hd]].
  - intros Hc. apply filteredClients_In in Hc. destruct Hc as (_ & _ & _ & Hm).
    rewrite Hd in Hm. apply andb_true_iff in Hm. destruct Hm as [Ha Hb].
    destruct (newDate (createdAt c)) as [|t]; simpl in Ha, Hb; [discriminate|].
    exists t. split; [reflexivity | lia].
  - intros Hat Hc. apply filteredClients_In in Hc. destruct Hc as (_ & _ & _ & Hm).
    rewrite Hd in Hm. apply andb_true_iff in Hm. destruct Hm as [Ha Hb].
    destruct Hat as [Hat | Hat]; rewrite Hat in Ha, Hb; simpl in Ha, Hb; lia.
Qed.

Lemma date_range_strict_witness :
  (1672531200000 < 1704067200000)%Z /\
  dateMatch IsoDate.parse
    {| search := ""; tag := None;
       dateRange := Some {| from := Some (TimeValue 1672531200000);
                            to := Some (TimeValue 1704067200000) |} |} beta =
  DateFns.isAfter (IsoDate.parse (createdAt beta)) (TimeValue 1672531200000) &&
  DateFns.isBefore (IsoDate.parse (createdAt beta)) (TimeValue 1704067200000).
Proof.
  split; [lia|].
  refine (proj2 (proj2 (date_range_strict AsciiGreek.toLowerCase IsoDate.parse
            {| search := ""; tag := None;
               dateRange := Some {| from := Some (TimeValue 1672531200000);
                                    to := Some (TimeValue 1704067200000) |} |}
            [acme; beta] 1672531200000 1704067200000 _ _ beta))).
  - reflexivity.
  - lia.
Defined.

(** C4.  An invalid [from] next to a valid [to] filters as an absent [from]
    does: the two filter states return the same clients for every
    collection, search string and tag. *)
Theorem invalid_from_is_absent (toLowerCase : string -> string) (newDate : string -> Date)
    (clients : list Client) (s : string) (t : option string) (D2 : Z) :
  filteredClients toLowerCase newDate
    {| search := s; tag := t;
       dateRange := Some {| from := Some InvalidDate; to := Some (TimeValue D2) |} |}
    clients =
  filteredClients toLowerCase newDate
    {| search := s; tag := t;
       dateRange := Some {| from := None; to := Some (TimeValue D2) |} |}
    clients.
Proof.
  unfold filteredClients. apply List.filter_ext. intros c.
  unfold keeps, dateMatch.
  cbn [dateRange from to present orb DateFns.isValid].
  reflexivity.
Qed.

(** C5.  The default filter state returns the collection as it is, and for
    every filter state the result is the collection with some clients left
    out: what stays keeps its order. *)
Theorem default_filter_identity_and_order (toLowerCase : string -> string) (newDate : string -> Date)
    (clients : list Client) :
  filteredClients toLowerCase newDate defaultFilterParams clients = clients /\
  forall fp, sublist (filteredClients toLowerCase newDate fp clients) clients.
Proof.
  split.
  - apply filter_all. reflexivity.
  - intros fp. apply filter_sublist.
Qed.

(** C10.  A client whose [createdAt] is not a valid date is not returned
    under any date range with a valid [from] or a valid [to]: against an
    invalid date both strict comparisons are false. *)
Theorem invalid_createdAt_excluded (toLowerCase : string -> string) (newDate : string -> Date)
    (fp : ClientFilterParams) (clients : list Client)
    (range : DateRange) (c : Client) :
  newDate (createdAt c) = InvalidDate ->
  dateRange fp = Some range ->
  (exists d, from range = Some (TimeValue d)) \/
  (exists d, to range = Some (TimeValue d)) ->
  (forall bound, DateFns.isAfter (newDate (createdAt c)) bound = false /\
                 DateFns.isBefore (newDate (createdAt c)) bound = false) /\
  ~ In c (filteredClients toLowerCase newDate fp clients).
Proof.
  intros Hinv Hr Hb. split.
  - intros bound. rewrite Hinv. split; reflexivity.
  - intros Hc. apply filteredClients_In in Hc. destruct Hc as (_ & _ & _ & Hm).
    unfold dateMatch in Hm. rewrite Hr, Hinv in Hm.
    destruct range as [f t]. simpl in Hb, Hm.
    destruct Hb as [[d ->] | [d ->]]; simpl in Hm.
    + destruct t as [[|t]|]; discriminate.
    + destruct f as [[|f]|]; discriminate.
Qed.

Lemma invalid_createdAt_excluded_witness :
  IsoDate.parse (createdAt untagged) = InvalidDate /\
  (DateFns.isAfter (IsoDate.parse (createdAt untagged)) (TimeValue 0) = false /\
   DateFns.isBefore (IsoDate.parse (createdAt untagged)) (TimeValue 0) = false).
Proof.
  split; [reflexivity|].
  refine (proj1 (invalid_createdAt_excluded AsciiGreek.toLowerCase IsoDate.parse
            {| search := ""; tag := None;
               dateRange := Some {| from := Some InvalidDate;
                                    to := Some (TimeValue 1704067200000) |} |}
            [acme; untagged]
            {| from := Some InvalidDate; to := Some (TimeValue 1704067200000) |}
            untagged _ _ _) (TimeValue 0)).
  - reflexivity.
  - reflexivity.
  - right. exists 1704067200000%Z. reflexivity.
Defined.

(** ** The selection handlers *)
Section SelectionFacts.
Import ClientList.

Lemma idIs_true shown clientId :
  idIs shown clientId = true <-> shown = Some clientId.
Proof.
  destruct shown as [x|]; simpl.
  - rewrite String.eqb_eq. split; congruence.
  - split; discriminate.
Qed.

Lemma shownClient_Some clients s c :
  shownClient clients s = Some c ->
  In c clients /\ showDetails s = Some (id c).
Proof.
  unfold shownClient. intros H. apply List.find_some in H.
  destruct H as [Hin Hid]. split; [exact Hin | now apply idIs_true].
Qed.

Lemma shownClient_None clients s shown :
  showDetails s = Some shown ->
  shownClient clients s = None <-> (forall c, In c clients -> id c <> shown).
Proof.
  intros Hs. unfold shownClient. split.
  - intros H c Hin Hid. pose proof (List.find_none _ _ H c Hin) as Hf.
    simpl in Hf. rewrite Hs in Hf. simpl in Hf.
    apply String.eqb_neq in Hf. contradiction.
  - intros H. destruct (List.find _ clients) as [c|] eqn:Hf; [|reflexivity].
    apply List.find_some in Hf. destruct Hf as [Hin Hid].
    apply idIs_true in Hid. rewrite Hs in Hid. injection Hid as Hid.
    exfalso. apply (H c Hin). congruence.
Qed.

End SelectionFacts.

(** C6, as amended.  From [PendingDelete c] the confirm action calls the
    delete collaborator once, with [c]'s id, and nothing else; when the call
    returns, whether or not the deletion it started succeeds, the state
    becomes [Idle]; when the call throws, the exception leaves the handler
    and the state stays [PendingDelete c].  From [Idle] confirm calls
    nothing and changes nothing. *)
Theorem confirm_delete_calls_once (onDeleteClient : string -> Outcome)
    (s : ClientList.State) :
  (forall c, ClientList.clientToDelete s = Some c ->
     trace (ClientList.confirmDelete onDeleteClient s) =
       [ClientList.DeleteClient (id c)] /\
     (forall succeeded, onDeleteClient (id c) = Returned succeeded ->
        final (ClientList.confirmDelete onDeleteClient s) =
          ClientList.setClientToDelete None s /\
        completion (ClientList.confirmDelete onDeleteClient s) = Normal tt) /\
     (forall reason, onDeleteClient (id c) = Thrown reason ->
        final (ClientList.confirmDelete onDeleteClient s) = s /\
        completion (ClientList.confirmDelete onDeleteClient s) = Throw reason)) /\
  (ClientList.clientToDelete s = None ->
     ClientList.confirmDelete onDeleteClient s = mkRun s [] (Normal tt)).
Proof.
  unfold ClientList.confirmDelete, ClientList.callDelete, bind, get, emit, modify.
  split.
  - intros c Hc. simpl. rewrite Hc. simpl.
    destruct (onDeleteClient (id c)) as [ok | r]; simpl;
      (split; [reflexivity|]); split; intros x Hx;
      try discriminate; injection Hx as <-; now split.
  - intros Hc. simpl. rewrite Hc. reflexivity.
Qed.

Lemma confirm_delete_calls_once_witness :
  trace (ClientList.confirmDelete (fun _ => Returned false)
           (ClientList.setClientToDelete (Some acme) ClientList.initialState)) =
    [ClientList.DeleteClient "1"] /\
  final (ClientList.confirmDelete (fun _ => Returned false)
           (ClientList.setClientToDelete (Some acme) ClientList.initialState)) =
    ClientList.initialState.
Proof.
  destruct (proj1 (confirm_delete_calls_once (fun _ => Returned false)
              (ClientList.setClientToDelete (Some acme) ClientList.initialState))
              acme eq_refl) as (Ht & Hret & _).
  split; [exact Ht | exact (proj1 (Hret false eq_refl))].
Defined.

(** C6 as stated fails when the collaborator fails by throwing: the state is
    still [PendingDelete acme] after the confirm action. *)
Lemma confirm_delete_throw_keeps_pending :
  ClientList.clientToDelete
    (final (ClientList.confirmDelete (fun _ => Thrown "request failed")
              (ClientList.setClientToDelete (Some acme) ClientList.initialState)))
  = Some acme /\
  ClientList.clientToDelete
    (final (ClientList.confirmDelete (fun _ => Thrown "request failed")
              (ClientList.setClientToDelete (Some acme) ClientList.initialState)))
  <> None.
Proof. split; [reflexivity | discriminate]. Qed.

(** C7, as amended.  Two clicks in a row on the row of client id [X] leave
    the details view [Hidden] from every starting state other than
    [Showing X]; from [Showing X] they lead back to [Showing X].  One click
    goes from [Hidden] to [Showing X], from [Showing X] to [Hidden], and from
    [Showing Y] with another id straight to [Showing X]. *)
Theorem row_click_toggle (client : Client) (s : ClientList.State) :
  let click s := final (ClientList.rowClick client s) in
  (ClientList.showDetails s <> Some (id client) ->
     ClientList.showDetails (click (click s)) = None) /\
  (ClientList.showDetails s = Some (id client) ->
     ClientList.showDetails (click (click s)) = Some (id client)) /\
  (ClientList.showDetails s = None ->
     ClientList.showDetails (click s) = Some (id client)) /\
  (ClientList.showDetails s = Some (id client) ->
     ClientList.showDetails (click s) = None) /\
  (forall other, ClientList.showDetails s = Some other -> other <> id client ->
     ClientList.showDetails (click s) = Some (id client)).
Proof.
  intros click. subst click. cbn beta.
  unfold ClientList.rowClick, bind, get, modify. simpl.
  destruct (ClientList.idIs (ClientList.showDetails s) (id client)) eqn:Hid.
  - apply idIs_true in Hid. rewrite Hid. simpl.
    repeat split; try congruence.
  - assert (Hne : ClientList.showDetails s <> Some (id client)).
    { intros H. apply idIs_true in H. congruence. }
    simpl. rewrite String.eqb_refl.
    repeat split; try congruence; try reflexivity.
Qed.

Lemma row_click_toggle_witness :
  ClientList.showDetails
    (final (ClientList.rowClick acme
       (final (ClientList.rowClick acme
          (ClientList.setShowDetails (Some "2") ClientList.initialState))))) = None.
Proof.
  refine (proj1 (row_click_toggle acme
            (ClientList.setShowDetails (Some "2") ClientList.initialState)) _).
  simpl. discriminate.
Defined.

(** C7 as stated fails from [Showing X]: two clicks on the row of the client
    already showing end at [Showing X], not at [Hidden]. *)
Lemma row_click_twice_from_showing :
  ClientList.showDetails
    (final (ClientList.rowClick acme
       (final (ClientList.rowClick acme
          (ClientList.setShowDetails (Some "1") ClientList.initialState)))))
  = Some "1".
Proof. reflexivity. Qed.

Lemma find_first {A} (f : A -> bool) (l : list A) (x : A) :
  List.find f l = Some x ->
  exists before after,
    l = (before ++ x :: after)%list /\ forall y, In y before -> f y = false.
Proof.
  induction l as [|a l IH]; simpl; [discriminate|].
  destruct (f a) eqn:Hfa.
  - intros H. injection H as ->. exists [], l. split; [reflexivity | intros y []].
  - intros H. destruct (IH H) as (before & after & -> & Hbefore).
    exists (a :: before), after. split; [reflexivity|].
    intros y [<- | Hy]; [exact Hfa | now apply Hbefore].
Qed.

Lemma shownClient_first clients s c shown :
  ClientList.showDetails s = Some shown ->
  ClientList.shownClient clients s = Some c ->
  exists before after,
    clients = (before ++ c :: after)%list /\
    forall x, In x before -> id x <> shown.
Proof.
  intros Hs Hf. unfold ClientList.shownClient in Hf. rewrite Hs in Hf.
  destruct (find_first _ _ _ Hf) as (before & after & Heq & Hbefore).
  exists before, after. split; [exact Heq|].
  intros x Hx. specialize (Hbefore x Hx). simpl in Hbefore.
  now apply String.eqb_neq in Hbefore.
Qed.

(** C8, as amended.  From [Showing shown] the edit action looks the client up
    in the current collection.  When a client with that id is there, it calls
    the edit collaborator once, with the first such client of the collection,
    and, the call having returned, sets the details view to [Hidden]; a call
    that throws leaves the state at [Showing shown].  When no client has that
    id, the action calls nothing, changes nothing and completes normally, and
    the body of the details dialog is not rendered. *)
Theorem edit_click_resolves (clients : list Client)
    (onEditClient : Client -> Outcome) (s : ClientList.State) (shown : string) :
  ClientList.showDetails s = Some shown ->
  ((exists c, In c clients /\ id c = shown) ->
   exists c, ClientList.shownClient clients s = Some c) /\
  (forall c, ClientList.shownClient clients s = Some c ->
     In c clients /\ id c = shown /\
     (exists before after,
        clients = (before ++ c :: after)%list /\
        forall x, In x before -> id x <> shown) /\
     trace (ClientList.editClick clients onEditClient s) = [ClientList.EditClient c] /\
     (forall succeeded, onEditClient c = Returned succeeded ->
        final (ClientList.editClick clients onEditClient s) =
          ClientList.setShowDetails None s /\
        completion (ClientList.editClick clients onEditClient s) = Normal tt) /\
     (forall reason, onEditClient c = Thrown reason ->
        final (ClientList.editClick clients onEditClient s) = s /\
        completion (ClientList.editClick clients onEditClient s) = Throw reason)) /\
  ((forall c, In c clients -> id c <> shown) ->
     ClientList.editClick clients onEditClient s = mkRun s [] (Normal tt) /\
     ClientList.detailsRendered clients s = false).
Proof.
  intros Hs. split; [|split].
  - intros (c & Hin & Hid).
    destruct (ClientList.shownClient clients s) as [c'|] eqn:Hf; [now exists c'|].
    pose proof (proj1 (shownClient_None clients s shown Hs) Hf c Hin) as Hne.
    contradiction.
  - intros c Hf. destruct (shownClient_Some clients s c Hf) as [Hin Hid].
    split; [exact Hin|]. split; [congruence|].
    split; [exact (shownClient_first clients s c shown Hs Hf)|].
    unfold ClientList.editClick, ClientList.callEdit, bind, get, emit, modify.
    simpl. rewrite Hf. simpl.
    destruct (onEditClient c) as [ok | r]; simpl;
      (split; [reflexivity|]); split; intros x Hx;
      try discriminate; injection Hx as <-; now split.
  - intros Hnone. apply (proj2 (shownClient_None clients s shown Hs)) in Hnone.
    unfold ClientList.editClick, ClientList.detailsRendered, bind, get.
    simpl. rewrite Hnone, Hs. simpl. split; [reflexivity | apply andb_false_r].
Qed.

Lemma edit_click_resolves_witness :
  trace (ClientList.editClick [acme; beta; betaTwo] (fun _ => Returned true)
           (ClientList.setShowDetails (Some "2") ClientList.initialState)) =
    [ClientList.EditClient beta] /\
  final (ClientList.editClick [acme; beta; betaTwo] (fun _ => Returned true)
           (ClientList.setShowDetails (Some "2") ClientList.initialState)) =
    ClientList.initialState.
Proof.
  destruct (proj1 (proj2 (edit_click_resolves [acme; beta; betaTwo]
              (fun _ => Returned true)
              (ClientList.setShowDetails (Some "2") ClientList.initialState)
              "2" eq_refl)) beta eq_refl) as (_ & _ & _ & Ht & Hret & _).
  split; [exact Ht | exact (proj1 (Hret true eq_refl))].
Defined.

(** C8 as stated fails when the edit collaborator throws: the client is
    resolved and the collaborator is called, but the details view is still
    [Showing "2"] afterwards. *)
Lemma edit_click_throw_keeps_showing :
  trace (ClientList.editClick [acme; beta] (fun _ => Thrown "editor failed")
           (ClientList.setShowDetails (Some "2") ClientList.initialState)) =
    [ClientList.EditClient beta] /\
  ClientList.showDetails
    (final (ClientList.editClick [acme; beta] (fun _ => Thrown "editor failed")
              (ClientList.setShowDetails (Some "2") ClientList.initialState)))
  = Some "2".
Proof. split; reflexivity. Qed.

(** ** The login handler *)
Section LoginFacts.
Import Login.
Variable login : string -> string -> Settlement.

(** The three runs of [handleLogin]. *)
Lemma handleLogin_missing s :
  email s = "" \/ password s = "" ->
  handleLogin login s =
    mkRun (setIsLoading false s) [PreventDefault; Toast missingFieldsToast] (Normal tt).
Proof.
  intros H. unfold handleLogin, bind, get, emit, modify. simpl.
  destruct H as [H | H]; rewrite H; simpl.
  - reflexivity.
  - now rewrite orb_true_r.
Qed.

Lemma handleLogin_resolves s :
  email s <> "" -> password s <> "" ->
  login (email s) (password s) = Resolves ->
  handleLogin login s =
    mkRun (setIsLoading false s)
      [PreventDefault; LoginCall (email s) (password s);
       Toast successToast; Navigate "/dashboard"]
      (Normal tt).
Proof.
  destruct s as [[|e0 e] [|p0 p] l]; simpl; intros He Hp Hl; try contradiction.
  cbv [handleLogin tryCatchFinally awaitLogin bind get emit modify setIsLoading
       final trace completion email password JsString.truthy negb orb app].
  rewrite Hl. reflexivity.
Qed.

Lemma handleLogin_rejects s reason :
  email s <> "" -> password s <> "" ->
  login (email s) (password s) = Rejects reason ->
  handleLogin login s =
    mkRun (setIsLoading false s)
      [PreventDefault; LoginCall (email s) (password s); Toast failureToast]
      (Normal tt).
Proof.
  destruct s as [[|e0 e] [|p0 p] l]; simpl; intros He Hp Hl; try contradiction.
  cbv [handleLogin tryCatchFinally awaitLogin bind get emit modify setIsLoading
       final trace completion email password JsString.truthy negb orb app].
  rewrite Hl. reflexivity.
Qed.

Lemma string_empty_dec (x : string) : x = "" \/ x <> "".
Proof. destruct x; [now left | now right]. Qed.

End LoginFacts.

(** C9.  When the login promise rejects, the handler never navigates and
    shows a destructive toast; with both fields filled in, its calls are the
    login call followed by the one fixed failure toast, whose text does not
    depend on the rejection reason.  A navigation in the trace means the
    promise resolved, goes to the dashboard, and comes after the login
    call. *)
Theorem login_rejection_no_navigation
    (login : string -> string -> Login.Settlement) (s : Login.State) :
  (forall reason, login (Login.email s) (Login.password s) = Login.Rejects reason ->
     (forall path, ~ In (Login.Navigate path) (trace (Login.handleLogin login s))) /\
     (exists args, In (Login.Toast args) (trace (Login.handleLogin login s)) /\
                   Login.variant args = Some "destructive") /\
     (Login.email s <> "" -> Login.password s <> "" ->
      trace (Login.handleLogin login s) =
        [Login.PreventDefault; Login.LoginCall (Login.email s) (Login.password s);
         Login.Toast Login.failureToast])) /\
  (forall path, In (Login.Navigate path) (trace (Login.handleLogin login s)) ->
     login (Login.email s) (Login.password s) = Login.Resolves /\
     path = "/dashboard" /\
     exists before after,
       trace (Login.handleLogin login s) =
         (before ++ Login.LoginCall (Login.email s) (Login.password s) :: after)%list /\
       In (Login.Navigate path) after).
Proof.
  destruct (string_empty_dec (Login.email s)) as [He | He];
    [| destruct (string_empty_dec (Login.password s)) as [Hp | Hp]].
  - rewrite (handleLogin_missing login s (or_introl He)). simpl. split.
    + intros reason _. split; [|split].
      * intros path [H | [H | []]]; discriminate.
      * exists Login.missingFieldsToast. split; [right; now left | reflexivity].
      * intros H. contradiction.
    + intros path [H | [H | []]]; discriminate.
  - rewrite (handleLogin_missing login s (or_intror Hp)). simpl. split.
    + intros reason _. split; [|split].
      * intros path [H | [H | []]]; discriminate.
      * exists Login.missingFieldsToast. split; [right; now left | reflexivity].
      * intros _ H. contradiction.
    + intros path [H | [H | []]]; discriminate.
  - destruct (login (Login.email s) (Login.password s)) as [|r] eqn:Hl.
    + rewrite (handleLogin_resolves login s He Hp Hl). simpl. split.
      * intros reason H. discriminate.
      * intros path [H | [H | [H | [H | []]]]]; try discriminate.
        injection H as <-. split; [reflexivity|]. split; [reflexivity|].
        exists [Login.PreventDefault],
               [Login.Toast Login.successToast; Login.Navigate "/dashboard"].
        split; [reflexivity | right; now left].
    + rewrite (handleLogin_rejects login s r He Hp Hl). simpl. split.
      * intros reason _. split; [|split].
        -- intros path [H | [H | [H | []]]]; discriminate.
        -- exists Login.failureToast. split; [right; right; now left | reflexivity].
        -- reflexivity.
      * intros path [H | [H | [H | []]]]; discriminate.
Qed.

Lemma login_rejection_no_navigation_witness :
  trace (Login.handleLogin (fun _ _ => Login.Rejects "ECONNREFUSED 10.0.0.7")
           {| Login.email := "ann@example.com"; Login.password := "hunter2";
              Login.isLoading := false |}) =
    [Login.PreventDefault; Login.LoginCall "ann@example.com" "hunter2";
     Login.Toast Login.failureToast].
Proof.
  refine (proj2 (proj2 (proj1 (login_rejection_no_navigation
            (fun _ _ => Login.Rejects "ECONNREFUSED 10.0.0.7")
            {| Login.email := "ann@example.com"; Login.password := "hunter2";
               Login.isLoading := false |}) "ECONNREFUSED 10.0.0.7" eq_refl)) _ _);
    simpl; discriminate.
Defined.

(** * Further properties of the client list and the login form *)

(** ** The tag vocabulary *)

Lemma setAdd_In elements x y :
  In y (setAdd elements x) <-> In y elements \/ y = x.
Proof.
  unfold setAdd. destruct (arrayIncludes elements x) eqn:Hx.
  - apply arrayIncludes_In in Hx. split; [auto | intros [H | ->]; assumption].
  - rewrite List.in_app_iff. simpl. split.
    + intros [H | [H | []]]; auto.
    + intros [H | H]; auto.
Qed.

Lemma setAdd_NoDup elements x : List.NoDup elements -> List.NoDup (setAdd elements x).
Proof.
  intros Hnd. unfold setAdd. destruct (arrayIncludes elements x) eqn:Hx; [exact Hnd|].
  assert (Hnot : ~ In x elements).
  { intros Hin. apply arrayIncludes_In in Hin. congruence. }
  clear Hx. induction elements as [|e l IH]; simpl.
  - constructor; [intros [] | constructor].
  - inversion Hnd as [|? ? Hne Hl]; subst. constructor.
    + rewrite List.in_app_iff. simpl. intros [H | [H | []]]; [auto|].
      apply Hnot. now left.
    + apply IH; [exact Hl|]. intros H. apply Hnot. now right.
Qed.

Lemma fold_setAdd_In xs : forall acc y,
  In y (List.fold_left setAdd xs acc) <-> In y acc \/ In y xs.
Proof.
  induction xs as [|x xs IH]; intros acc y; simpl.
  - tauto.
  - rewrite IH, setAdd_In. intuition congruence.
Qed.

Lemma fold_setAdd_NoDup xs : forall acc,
  List.NoDup acc -> List.NoDup (List.fold_left setAdd xs acc).
Proof.
  induction xs as [|x xs IH]; intros acc Hnd; simpl; [exact Hnd|].
  apply IH, setAdd_NoDup, Hnd.
Qed.

Lemma fold_setAdd_order xs : forall acc,
  exists added,
    List.fold_left setAdd xs acc = (acc ++ added)%list /\ sublist added xs.
Proof.
  induction xs as [|x xs IH]; intros acc; simpl.
  - exists []. split; [now rewrite List.app_nil_r | constructor].
  - destruct (IH (setAdd acc x)) as (added & Heq & Hsub). unfold setAdd in *.
    destruct (arrayIncludes acc x).
    + exists added. split; [exact Heq | now constructor].
    + exists (x :: added). split; [now rewrite Heq, <- List.app_assoc | now constructor].
Qed.

Lemma flat_map_tags_In clients t :
  In t (List.flat_map tagsOrEmpty clients) <->
  exists c, In c clients /\ carriesTag t c.
Proof.
  rewrite List.in_flat_map. unfold carriesTag, tagsOrEmpty. split.
  - intros (c & Hc & Ht). exists c. split; [exact Hc|].
    destruct (tags c) as [ts|]; [now exists ts | contradiction].
  - intros (c & Hc & ts & Heq & Ht). exists c. split; [exact Hc|]. now rewrite Heq.
Qed.

(** X1.  The tag menu lists each tag once: [uniqueTags] has no duplicates,
    holds exactly the strings that are a tag of some client of the
    collection, and lists them in the order in which the clients' tags
    follow one another. *)
Theorem uniqueTags_distinct_union (clients : list Client) :
  List.NoDup (uniqueTags clients) /\
  (forall t, In t (uniqueTags clients) <->
             exists c, In c clients /\ carriesTag t c) /\
  sublist (uniqueTags clients) (List.flat_map tagsOrEmpty clients).
Proof.
  unfold uniqueTags, spreadNewSet. split; [|split].
  - apply fold_setAdd_NoDup. constructor.
  - intros t. rewrite fold_setAdd_In, flat_map_tags_In. simpl. tauto.
  - destruct (fold_setAdd_order (List.flat_map tagsOrEmpty clients) [])
      as (added & Heq & Hsub).
    rewrite Heq. exact Hsub.
Qed.

Example uniqueTags_sample :
  uniqueTags [acme; beta; untagged; acme] = ["VIP"].
Proof. reflexivity. Qed.

Lemma uniqueTags_In clients t :
  In t (uniqueTags clients) <-> exists c, In c clients /\ carriesTag t c.
Proof.
  unfold uniqueTags, spreadNewSet.
  rewrite fold_setAdd_In, flat_map_tags_In. simpl. tauto.
Qed.

(** ** More on the filtering computation *)

Lemma filter_twice {A} (f g : A -> bool) (l : list A) :
  List.filter f (List.filter g l) = List.filter (fun x => g x && f x) l.
Proof.
  induction l as [|x l IH]; simpl; [reflexivity|].
  destruct (g x); simpl; [|exact IH].
  destruct (f x); now rewrite IH.
Qed.

Lemma filter_narrower {A} (f g : A -> bool) (l : list A) :
  (forall x, f x = true -> g x = true) ->
  sublist (List.filter f l) (List.filter g l).
Proof.
  intros Hfg. induction l as [|x l IH]; simpl; [constructor|].
  destruct (f x) eqn:Hf.
  - rewrite (Hfg x Hf). now constructor.
  - destruct (g x); [now constructor | exact IH].
Qed.

Lemma string_app_assoc (a b c : string) : (a ++ b) ++ c = a ++ b ++ c.
Proof. induction a as [|x a IH]; simpl; [reflexivity | now rewrite IH]. Qed.

Lemma includes_longer s p q :
  JsString.includes s q = true ->
  (exists pre post, q = pre ++ p ++ post) ->
  JsString.includes s p = true.
Proof.
  rewrite !includes_spec. intros (a & b & Hs) (pre & post & Hq).
  exists (a ++ pre), (post ++ b).
  now rewrite Hs, Hq, !string_app_assoc.
Qed.

Lemma asciiFaithful_occurs (toLowerCase : string -> string) p q :
  JsString.asciiFaithful toLowerCase -> JsString.isAscii q = true ->
  (exists pre post, q = pre ++ p ++ post) ->
  exists pre post, toLowerCase q = pre ++ toLowerCase p ++ post.
Proof.
  intros Hf Hq (pre & post & Heq).
  assert (Hp : JsString.isAscii p = true).
  { rewrite Heq, !isAscii_app, !andb_true_iff in Hq. tauto. }
  rewrite (Hf q Hq), (Hf p Hp), Heq.
  exists (JsString.asciiToLowerCase pre), (JsString.asciiToLowerCase post).
  now rewrite !asciiToLowerCase_app.
Qed.

Lemma asciiToLowerCase_truthy s :
  JsString.truthy (JsString.asciiToLowerCase s) = JsString.truthy s.
Proof. destruct s; reflexivity. Qed.

Section FilterAlgebra.
Variable toLowerCase : string -> string.
Variable newDate : string -> Date.

Lemma searchMatch_longer (s s' : string) (t t' : option string)
    (d d' : option DateRange) (c : Client) :
  JsString.asciiFaithful toLowerCase -> JsString.isAscii s' = true ->
  (exists pre post, s' = pre ++ s ++ post) ->
  searchMatch toLowerCase {| search := s'; tag := t'; dateRange := d' |} c = true ->
  searchMatch toLowerCase {| search := s; tag := t; dateRange := d |} c = true.
Proof.
  intros Hf Hascii Hocc. unfold searchMatch. cbn [search].
  destruct s as [|x s]; [reflexivity|].
  assert (Hs' : JsString.truthy s' = true).
  { destruct Hocc as (pre & post & ->). destruct pre; reflexivity. }
  rewrite Hs'. cbn [JsString.truthy negb orb]. rewrite !orb_false_r.
  pose proof (asciiFaithful_occurs toLowerCase _ _ Hf Hascii Hocc) as Hlow.
  rewrite !orb_true_iff. intros [[H | H] | H].
  - left; left. exact (includes_longer _ _ _ H Hlow).
  - left; right. exact (includes_longer _ _ _ H Hlow).
  - right. destruct (companyName c) as [company|]; [|discriminate].
    exact (includes_longer _ _ _ H Hlow).
Qed.

Lemma keeps_split (fp : ClientFilterParams) (c : Client) :
  keeps toLowerCase newDate fp c =
  keeps toLowerCase newDate {| search := ""; tag := None; dateRange := dateRange fp |} c &&
  keeps toLowerCase newDate {| search := ""; tag := tag fp; dateRange := None |} c &&
  keeps toLowerCase newDate {| search := search fp; tag := None; dateRange := None |} c.
Proof.
  unfold keeps, searchMatch, tagMatch, dateMatch. cbn [search tag dateRange].
  cbn [JsString.truthy negb orb andb]. rewrite !andb_true_r.
  set (a := negb _ || _ || _ || _ || false).
  set (b := match tag fp with Some _ => _ | None => true end).
  set (d := match dateRange fp with Some _ => _ | None => true end).
  destruct a, b, d; reflexivity.
Qed.

End FilterAlgebra.

(** X2.  A non-empty tag picked from the tag menu always finds someone: with
    no search text and no date range the filtered list is not empty, and
    every client in it carries the tag. *)
Theorem offered_tag_finds_clients (toLowerCase : string -> string) (newDate : string -> Date)
    (clients : list Client) (t : string) :
  In t (uniqueTags clients) -> t <> "" ->
  filteredClients toLowerCase newDate
    {| search := ""; tag := Some t; dateRange := None |} clients <> [] /\
  forall c,
    In c (filteredClients toLowerCase newDate
            {| search := ""; tag := Some t; dateRange := None |} clients) ->
    carriesTag t c.
Proof.
  intros Ht Hne.
  set (fp := {| search := ""; tag := Some t; dateRange := None |}).
  assert (Htag : forall c, tagMatch fp c = true <-> carriesTag t c).
  { intros c. now apply tagMatch_nonempty. }
  split.
  - apply uniqueTags_In in Ht. destruct Ht as (c & Hc & Hcarries).
    intros Hnil.
    assert (Hin : In c (filteredClients toLowerCase newDate fp clients)).
    { apply filteredClients_In. repeat split; try reflexivity; [exact Hc|].
      now apply Htag. }
    rewrite Hnil in Hin. contradiction.
  - intros c Hc. apply filteredClients_In in Hc.
    destruct Hc as (_ & _ & Hm & _). now apply Htag.
Qed.

Lemma offered_tag_finds_clients_witness :
  filteredClients AsciiGreek.toLowerCase IsoDate.parse
    {| search := ""; tag := Some "VIP"; dateRange := None |}
    [beta; untagged; acme] <> [] /\
  In "VIP" (uniqueTags [beta; untagged; acme]).
Proof.
  assert (Hin : In "VIP" (uniqueTags [beta; untagged; acme])) by (now left).
  split; [|exact Hin].
  refine (proj1 (offered_tag_finds_clients AsciiGreek.toLowerCase IsoDate.parse
                   [beta; untagged; acme] "VIP" Hin _)).
  discriminate.
Defined.

(** X3.  The three criteria are independent passes.  Filtering by a filter
    state is filtering by its date range alone, then by its tag alone, then
    by its search text alone; filtering an already filtered list again
    changes nothing; and two filter states can be applied in either order. *)
Theorem filter_passes_compose (toLowerCase : string -> string) (newDate : string -> Date)
    (fp fp' : ClientFilterParams) (clients : list Client) :
  filteredClients toLowerCase newDate fp clients =
    filteredClients toLowerCase newDate {| search := search fp; tag := None; dateRange := None |}
      (filteredClients toLowerCase newDate {| search := ""; tag := tag fp; dateRange := None |}
         (filteredClients toLowerCase newDate
            {| search := ""; tag := None; dateRange := dateRange fp |} clients)) /\
  filteredClients toLowerCase newDate fp (filteredClients toLowerCase newDate fp clients) =
    filteredClients toLowerCase newDate fp clients /\
  filteredClients toLowerCase newDate fp (filteredClients toLowerCase newDate fp' clients) =
    filteredClients toLowerCase newDate fp' (filteredClients toLowerCase newDate fp clients).
Proof.
  unfold filteredClients. rewrite !filter_twice. repeat split.
  - apply List.filter_ext. intros c. rewrite andb_assoc. apply keeps_split.
  - apply List.filter_ext. intros c. now destruct (keeps toLowerCase newDate fp c).
  - apply List.filter_ext. intros c. apply andb_comm.
Qed.

(** X4.  Typing more ASCII text never brings clients back: when the search
    text [s] occurs inside a longer text [s'] and [s'] is ASCII text, the
    list filtered with [s'] is the list filtered with [s] with some clients
    left out, the other criteria being the same.  (Outside ASCII the
    lower-casing of a piece need not be a piece of the lower-casing.) *)
Theorem longer_search_narrows (toLowerCase : string -> string) (newDate : string -> Date)
    (clients : list Client) (s s' : string)
    (t : option string) (d : option DateRange) :
  JsString.asciiFaithful toLowerCase ->
  JsString.isAscii s' = true ->
  (exists pre post, s' = pre ++ s ++ post) ->
  sublist
    (filteredClients toLowerCase newDate {| search := s'; tag := t; dateRange := d |} clients)
    (filteredClients toLowerCase newDate {| search := s; tag := t; dateRange := d |} clients).
Proof.
  intros Hf Hascii Hocc. unfold filteredClients. apply filter_narrower.
  intros c. unfold keeps. rewrite !andb_true_iff.
  intros [[Hs Ht] Hd]. repeat split; [|exact Ht | exact Hd].
  exact (searchMatch_longer toLowerCase s s' t t d d c Hf Hascii Hocc Hs).
Qed.

Lemma longer_search_narrows_witness :
  sublist
    (filteredClients AsciiGreek.toLowerCase IsoDate.parse
       {| search := "eta L"; tag := None; dateRange := None |} [acme; beta])
    (filteredClients AsciiGreek.toLowerCase IsoDate.parse
       {| search := "ta"; tag := None; dateRange := None |} [acme; beta]).
Proof.
  refine (longer_search_narrows AsciiGreek.toLowerCase IsoDate.parse [acme; beta]
            "ta" "eta L" None None AsciiGreek_asciiFaithful _ _).
  - reflexivity.
  - exists "e", " L". reflexivity.
Defined.

(** X5.  On ASCII search text the letter case does not matter: two ASCII
    search texts that agree up to letter case, unit by unit, return the same
    clients. *)
Theorem search_text_case_irrelevant (toLowerCase : string -> string) (newDate : string -> Date)
    (clients : list Client) (s s' : string)
    (t : option string) (d : option DateRange) :
  JsString.asciiFaithful toLowerCase ->
  JsString.isAscii s = true -> JsString.isAscii s' = true ->
  JsString.sameLetters s s' ->
  filteredClients toLowerCase newDate {| search := s; tag := t; dateRange := d |} clients =
  filteredClients toLowerCase newDate {| search := s'; tag := t; dateRange := d |} clients.
Proof.
  intros Hf Hs Hs' Hss. apply sameLetters_asciiToLowerCase in Hss.
  assert (Htruthy : JsString.truthy s = JsString.truthy s').
  { now rewrite <- (asciiToLowerCase_truthy s), Hss, asciiToLowerCase_truthy. }
  assert (Hlow : toLowerCase s = toLowerCase s').
  { now rewrite (Hf s Hs), (Hf s' Hs'). }
  unfold filteredClients. apply List.filter_ext. intros c.
  unfold keeps, searchMatch. cbn [search]. now rewrite Hlow, Htruthy.
Qed.

Lemma search_text_case_irrelevant_witness :
  filteredClients AsciiGreek.toLowerCase IsoDate.parse
    {| search := "aCmE"; tag := None; dateRange := None |} [acme; beta] =
  filteredClients AsciiGreek.toLowerCase IsoDate.parse
    {| search := "Acme"; tag := None; dateRange := None |} [acme; beta].
Proof.
  refine (search_text_case_irrelevant AsciiGreek.toLowerCase IsoDate.parse [acme; beta]
            "aCmE" "Acme" None None AsciiGreek_asciiFaithful _ _ _).
  - reflexivity.
  - reflexivity.
  - apply sameLetters_asciiToLowerCase. reflexivity.
Defined.

(** X6.  A date range filters only through its valid bounds: when each bound
    is absent or an Invalid Date, the range excludes nobody and the result
    is the one without a date range. *)
Theorem range_without_valid_bound_is_no_range (toLowerCase : string -> string) (newDate : string -> Date)
    (clients : list Client) (s : string) (t : option string)
    (range : DateRange) :
  from range = None \/ from range = Some InvalidDate ->
  to range = None \/ to range = Some InvalidDate ->
  filteredClients toLowerCase newDate {| search := s; tag := t; dateRange := Some range |} clients =
  filteredClients toLowerCase newDate {| search := s; tag := t; dateRange := None |} clients.
Proof.
  intros Hf Ht. unfold filteredClients. apply List.filter_ext. intros c.
  unfold keeps. f_equal. unfold dateMatch. cbn [dateRange].
  destruct Hf as [-> | ->], Ht as [-> | ->]; reflexivity.
Qed.

Lemma range_without_valid_bound_is_no_range_witness :
  filteredClients AsciiGreek.toLowerCase IsoDate.parse
    {| search := ""; tag := None;
       dateRange := Some {| from := Some InvalidDate; to := None |} |}
    [acme; beta; untagged] =
  filteredClients AsciiGreek.toLowerCase IsoDate.parse
    {| search := ""; tag := None; dateRange := None |} [acme; beta; untagged].
Proof.
  refine (range_without_valid_bound_is_no_range AsciiGreek.toLowerCase IsoDate.parse
            [acme; beta; untagged] "" None
            {| from := Some InvalidDate; to := None |} _ _).
  - right. reflexivity.
  - left. reflexivity.
Defined.

(** ** The filter controls *)

(** X7.  Reset Filters brings the whole collection back whatever the filter
    state was, calls no collaborator, and leaves the filter panel and both
    selections as they were. *)
Theorem reset_shows_everything (toLowerCase : string -> string) (newDate : string -> Date)
    (clients : list Client) (s : ClientList.State) :
  filteredClients toLowerCase newDate
    (ClientList.filterParams (final (ClientList.resetClick s))) clients = clients /\
  trace (ClientList.resetClick s) = [] /\
  ClientList.showFilters (final (ClientList.resetClick s)) = ClientList.showFilters s /\
  ClientList.clientToDelete (final (ClientList.resetClick s)) =
    ClientList.clientToDelete s /\
  ClientList.showDetails (final (ClientList.resetClick s)) = ClientList.showDetails s.
Proof.
  split; [|repeat split].
  unfold ClientList.resetClick, modify. cbn [final ClientList.setFilterParams
    ClientList.filterParams].
  unfold filteredClients. apply filter_all. reflexivity.
Qed.

(** X8.  The two date pickers do not disturb each other: picking From and
    To in either order leaves the same state, whose range holds both picks
    with search text and tag untouched; and once both picks are cleared
    again the range that is left filters like no range at all. *)
Theorem date_pickers_independent (toLowerCase : string -> string) (newDate : string -> Date)
    (clients : list Client) (s : ClientList.State) (a b : option Date) :
  let picked := final (ClientList.toSelect b (final (ClientList.fromSelect a s))) in
  let cleared :=
    final (ClientList.toSelect None (final (ClientList.fromSelect None picked))) in
  picked = final (ClientList.fromSelect a (final (ClientList.toSelect b s))) /\
  ClientList.filterParams picked =
    {| search := search (ClientList.filterParams s);
       tag := tag (ClientList.filterParams s);
       dateRange := Some {| from := a; to := b |} |} /\
  filteredClients toLowerCase newDate (ClientList.filterParams cleared) clients =
  filteredClients toLowerCase newDate
    {| search := search (ClientList.filterParams s);
       tag := tag (ClientList.filterParams s); dateRange := None |}
    clients.
Proof.
  unfold ClientList.toSelect, ClientList.fromSelect, bind, get, modify.
  cbn [final trace completion ClientList.setFilterParams ClientList.filterParams
       ClientList.showFilters ClientList.clientToDelete ClientList.showDetails
       search tag dateRange ClientList.spreadFrom ClientList.spreadTo from to].
  repeat split.
Qed.

(** ** The details dialog *)

Lemma find_unique_id (clients : list Client) (c : Client) :
  List.NoDup (List.map id clients) -> In c clients ->
  List.find (fun x => ClientList.idIs (Some (id c)) (id x)) clients = Some c.
Proof.
  induction clients as [|x l IH]; simpl; [contradiction|].
  intros Hnd Hin. inversion Hnd as [|? ? Hnot Hl]; subst.
  destruct Hin as [-> | Hin].
  - now rewrite String.eqb_refl.
  - destruct (String.eqb (id x) (id c)) eqn:Heq.
    + apply String.eqb_eq in Heq. exfalso. apply Hnot. rewrite Heq.
      now apply List.in_map.
    + now apply IH.
Qed.

Lemma find_some_id (clients : list Client) (c : Client) :
  In c clients ->
  exists c', List.find (fun x => ClientList.idIs (Some (id c)) (id x)) clients = Some c'.
Proof.
  intros Hin.
  destruct (List.find _ clients) as [c'|] eqn:Hf; [now exists c'|].
  pose proof (List.find_none _ _ Hf c Hin) as H. simpl in H.
  now rewrite String.eqb_refl in H.
Qed.

(** X9.  The body of the details dialog is rendered only for a client that
    can be resolved: under the guard the lookup finds a client of the
    collection whose id is the non-empty id showing, the dialog is open, and
    Edit Client calls the edit collaborator once, with that client. *)
Theorem details_guard_resolves (clients : list Client)
    (onEditClient : Client -> Outcome) (s : ClientList.State) :
  ClientList.detailsRendered clients s = true ->
  exists c,
    ClientList.shownClient clients s = Some c /\ In c clients /\
    ClientList.showDetails s = Some (id c) /\ id c <> "" /\
    ClientList.detailsDialogOpen s = true /\
    trace (ClientList.editClick clients onEditClient s) = [ClientList.EditClient c].
Proof.
  unfold ClientList.detailsRendered, ClientList.detailsDialogOpen.
  destruct (ClientList.showDetails s) as [shown|] eqn:Hs; [|discriminate].
  intros H. apply andb_true_iff in H. destruct H as [Htruthy Hfound].
  destruct (ClientList.shownClient clients s) as [c|] eqn:Hf; [|discriminate].
  destruct (shownClient_Some clients s c Hf) as [Hin Hid].
  assert (Heq : shown = id c) by congruence. subst shown.
  exists c. repeat split; try assumption.
  - now apply JsString_truthy_nonempty.
  - unfold ClientList.editClick, ClientList.callEdit, bind, get, emit, modify.
    simpl. rewrite Hf. simpl. now destruct (onEditClient c).
Qed.

Lemma details_guard_resolves_witness :
  exists c,
    ClientList.shownClient [acme; beta]
      (ClientList.setShowDetails (Some "2") ClientList.initialState) = Some c /\
    In c [acme; beta] /\
    ClientList.showDetails
      (ClientList.setShowDetails (Some "2") ClientList.initialState) = Some (id c) /\
    id c <> "" /\
    ClientList.detailsDialogOpen
      (ClientList.setShowDetails (Some "2") ClientList.initialState) = true /\
    trace (ClientList.editClick [acme; beta] (fun _ => Thrown "no editor")
             (ClientList.setShowDetails (Some "2") ClientList.initialState)) =
      [ClientList.EditClient c].
Proof.
  refine (details_guard_resolves [acme; beta] (fun _ => Thrown "no editor")
            (ClientList.setShowDetails (Some "2") ClientList.initialState) _).
  reflexivity.
Defined.

(** X10.  A click on a row opens the details dialog exactly when the row's
    client has a non-empty id and is not the one already showing. *)
Theorem row_click_opens_dialog (client : Client) (s : ClientList.State) :
  ClientList.detailsDialogOpen (final (ClientList.rowClick client s)) = true <->
  id client <> "" /\ ClientList.showDetails s <> Some (id client).
Proof.
  unfold ClientList.rowClick, ClientList.detailsDialogOpen, bind, get, modify.
  simpl. destruct (ClientList.idIs (ClientList.showDetails s) (id client)) eqn:Hid.
  - apply idIs_true in Hid. split; [discriminate | intros [_ H]; contradiction].
  - rewrite JsString_truthy_nonempty. split.
    + intros Hne. split; [exact Hne|]. intros H. apply idIs_true in H. congruence.
    + tauto.
Qed.

(** X11.  A row of the filtered list always leads to its details: after a
    click on the row of a client the filter returned, with a non-empty id
    and not already showing, the dialog body is rendered for a client with
    that id; when the ids of the collection are distinct it is the clicked
    client itself, and Edit Client then passes that client to the edit
    collaborator. *)
Theorem filtered_row_click_shows_client (toLowerCase : string -> string) (newDate : string -> Date)
    (fp : ClientFilterParams) (clients : list Client)
    (onEditClient : Client -> Outcome) (client : Client) (s : ClientList.State) :
  In client (filteredClients toLowerCase newDate fp clients) ->
  id client <> "" ->
  ClientList.showDetails s <> Some (id client) ->
  ClientList.detailsRendered clients (final (ClientList.rowClick client s)) = true /\
  (exists c, ClientList.shownClient clients (final (ClientList.rowClick client s)) = Some c /\
             id c = id client) /\
  (List.NoDup (List.map id clients) ->
   ClientList.shownClient clients (final (ClientList.rowClick client s)) = Some client /\
   trace (ClientList.editClick clients onEditClient
            (final (ClientList.rowClick client s))) = [ClientList.EditClient client]).
Proof.
  intros Hin Hne Hshow. apply filteredClients_In in Hin. destruct Hin as [Hin _].
  assert (Hfinal : ClientList.showDetails (final (ClientList.rowClick client s)) =
                   Some (id client)).
  { unfold ClientList.rowClick, bind, get, modify. simpl.
    destruct (ClientList.idIs (ClientList.showDetails s) (id client)) eqn:Hid;
      [|reflexivity].
    apply idIs_true in Hid. contradiction. }
  unfold ClientList.detailsRendered, ClientList.shownClient. rewrite Hfinal.
  destruct (find_some_id clients client Hin) as [c' Hc'].
  split; [|split].
  - rewrite Hc'. apply JsString_truthy_nonempty in Hne. now rewrite Hne.
  - exists c'. split; [exact Hc'|]. apply List.find_some in Hc'.
    destruct Hc' as [_ Hid]. now apply String.eqb_eq in Hid.
  - intros Hnd. pose proof (find_unique_id clients client Hnd Hin) as Hf.
    split; [exact Hf|].
    unfold ClientList.editClick, ClientList.callEdit, ClientList.shownClient,
      bind, get, emit, modify.
    cbn [final trace completion]. rewrite Hfinal, Hf. cbn [final trace completion].
    now destruct (onEditClient client).
Qed.

Lemma filtered_row_click_shows_client_witness :
  ClientList.detailsRendered [acme; beta]
    (final (ClientList.rowClick beta ClientList.initialState)) = true.
Proof.
  refine (proj1 (filtered_row_click_shows_client AsciiGreek.toLowerCase IsoDate.parse
            {| search := "llc"; tag := None; dateRange := None |} [acme; beta]
            (fun _ => Returned true) beta ClientList.initialState _ _ _)).
  - simpl. now left.
  - discriminate.
  - discriminate.
Defined.

(** ** Runs of actions *)
Section SessionFacts.
Import ClientList.
Variable clients : list Client.
Variable onEditClient : Client -> Outcome.
Variable onDeleteClient : string -> Outcome.

Local Abbreviation handle := (ClientList.handle clients onEditClient onDeleteClient).
Local Abbreviation session := (ClientList.session clients onEditClient onDeleteClient).

Ltac run_handler :=
  cbv [ClientList.handle searchChange filtersClick allTagsClick tagClick fromSelect
       toSelect resetClick rowClick rowEditClick deleteClick cancelDelete
       confirmDelete deleteDialogOpenChange closeDetails editClick
       detailsDialogOpenChange callEdit callDelete
       bind get modify emit ret throw final trace completion app negb
       isConfirmDelete];
  repeat (match goal with
          | |- context [match clientToDelete ?s with _ => _ end] =>
              destruct (clientToDelete s) eqn:?
          | |- context [match shownClient ?l ?s with _ => _ end] =>
              destruct (shownClient l s) eqn:?
          | |- context [onEditClient ?c] => destruct (onEditClient c) eqn:?
          | |- context [onDeleteClient ?i] => destruct (onDeleteClient i) eqn:?
          | |- context [if ?b then _ else _] => destruct b eqn:?
          end; cbv beta iota zeta);
  cbn [final trace completion app clientToDelete showDetails filterParams
       showFilters setClientToDelete setShowDetails setFilterParams
       setShowFilters isDeleteCall isConfirmDelete List.filter List.length In].

Lemma session_cons a rest s :
  session (a :: rest) s =
  (fst (session rest (final (handle a s))),
   (trace (handle a s) ++ snd (session rest (final (handle a s))))%list).
Proof. simpl. now destruct (session rest (final (handle a s))). Qed.

(** Only Delete in the confirmation dialog reaches the delete collaborator,
    and with the id of the pending client. *)
Lemma handle_delete_call a s i :
  In (DeleteClient i) (trace (handle a s)) ->
  a = ConfirmDelete /\ exists c, clientToDelete s = Some c /\ id c = i.
Proof.
  destruct a; run_handler; intros H;
    repeat match goal with
           | H : _ \/ _ |- _ => destruct H
           | H : False |- _ => destruct H
           end;
    try discriminate;
    (split; [reflexivity|]); eexists; (split; [reflexivity | congruence]).
Qed.

Lemma handle_delete_count a s :
  List.length (List.filter isDeleteCall (trace (handle a s))) <=
  (if isConfirmDelete a then 1 else 0).
Proof. destruct a; run_handler; lia. Qed.

(** A pending client was pending before, or is the target of this click. *)
Lemma handle_pending a s c :
  clientToDelete (final (handle a s)) = Some c ->
  clientToDelete s = Some c \/ a = DeleteClick c.
Proof.
  destruct a; run_handler; intros H; try discriminate;
    try (left; congruence); right; congruence.
Qed.

Lemma handle_edit_call a s c :
  In (EditClient c) (trace (handle a s)) ->
  (a = EditClick /\ shownClient clients s = Some c) \/ a = RowEditClick c.
Proof.
  destruct a; run_handler; intros H;
    repeat match goal with
           | H : _ \/ _ |- _ => destruct H
           | H : False |- _ => destruct H
           end;
    try discriminate;
    try (right; congruence); left; split; congruence.
Qed.

Lemma session_delete_calls actions : forall s i,
  In (DeleteClient i) (snd (session actions s)) ->
  (exists c, clientToDelete s = Some c /\ id c = i) \/
  (exists c, In (DeleteClick c) actions /\ id c = i).
Proof.
  induction actions as [|a rest IH]; intros s i; [intros []|].
  rewrite session_cons. cbn [snd]. rewrite List.in_app_iff. intros [H | H].
  - apply handle_delete_call in H. left. tauto.
  - apply IH in H. destruct H as [(c & Hc & Hid) | (c & Hc & Hid)].
    + apply handle_pending in Hc. destruct Hc as [Hc | ->].
      * left. now exists c.
      * right. exists c. split; [now left | exact Hid].
    + right. exists c. split; [now right | exact Hid].
Qed.

Lemma session_delete_count actions : forall s,
  List.length (List.filter isDeleteCall (snd (session actions s))) <=
  List.length (List.filter isConfirmDelete actions).
Proof.
  induction actions as [|a rest IH]; intros s; [simpl; lia|].
  rewrite session_cons. cbn [snd]. rewrite List.filter_app, List.length_app.
  pose proof (handle_delete_count a s) as Ha.
  specialize (IH (final (handle a s))). simpl.
  destruct (isConfirmDelete a); simpl; lia.
Qed.

Lemma session_edit_calls actions : forall s c,
  In (EditClient c) (snd (session actions s)) ->
  In c clients \/ In (RowEditClick c) actions.
Proof.
  induction actions as [|a rest IH]; intros s c; [intros []|].
  rewrite session_cons. cbn [snd]. rewrite List.in_app_iff. intros [H | H].
  - apply handle_edit_call in H. destruct H as [[_ Hf] | ->].
    + left. now apply shownClient_Some in Hf.
    + right. now left.
  - apply IH in H. destruct H as [H | H]; [now left | right; now right].
Qed.

Lemma handle_frame a s :
  match a with
  | SearchChange _ | FiltersClick | AllTagsClick | TagClick _
  | FromSelect _ | ToSelect _ | ResetClick =>
      clientToDelete (final (handle a s)) = clientToDelete s /\
      showDetails (final (handle a s)) = showDetails s /\
      trace (handle a s) = []
  | DeleteClick _ | CancelDelete | ConfirmDelete | DeleteDialogOpenChange _ =>
      filterParams (final (handle a s)) = filterParams s /\
      showFilters (final (handle a s)) = showFilters s /\
      showDetails (final (handle a s)) = showDetails s
  | RowClick _ | RowEditClick _ | CloseDetails | EditClick
  | DetailsDialogOpenChange _ =>
      filterParams (final (handle a s)) = filterParams s /\
      showFilters (final (handle a s)) = showFilters s /\
      clientToDelete (final (handle a s)) = clientToDelete s
  end.
Proof. destruct a; run_handler; auto. Qed.

End SessionFacts.

(** X12.  Whatever the user does and however the collaborators behave, the
    delete collaborator is only ever called with the id of a client that was
    pending at the start or whose trash button was clicked during the run,
    and no more often than Delete was pressed in the confirmation dialog. *)
Theorem delete_only_on_request (clients : list Client)
    (onEditClient : Client -> Outcome) (onDeleteClient : string -> Outcome)
    (actions : list ClientList.Action) (s : ClientList.State) :
  (forall i,
     In (ClientList.DeleteClient i)
        (snd (ClientList.session clients onEditClient onDeleteClient actions s)) ->
     (exists c, ClientList.clientToDelete s = Some c /\ id c = i) \/
     (exists c, In (ClientList.DeleteClick c) actions /\ id c = i)) /\
  List.length
    (List.filter ClientList.isDeleteCall
       (snd (ClientList.session clients onEditClient onDeleteClient actions s))) <=
  List.length (List.filter ClientList.isConfirmDelete actions).
Proof.
  split.
  - intros i. apply session_delete_calls.
  - apply session_delete_count.
Qed.

(** X13.  The edit collaborator only ever receives a client of the current
    collection (from Edit Client in the details dialog) or the client of the
    row whose pencil button was clicked. *)
Theorem edit_only_known_clients (clients : list Client)
    (onEditClient : Client -> Outcome) (onDeleteClient : string -> Outcome)
    (actions : list ClientList.Action) (s : ClientList.State) (c : Client) :
  In (ClientList.EditClient c)
     (snd (ClientList.session clients onEditClient onDeleteClient actions s)) ->
  In c clients \/ In (ClientList.RowEditClick c) actions.
Proof. apply session_edit_calls. Qed.

Lemma edit_only_known_clients_witness :
  In (ClientList.EditClient beta)
     (snd (ClientList.session [acme; beta] (fun _ => Returned true)
             (fun _ => Returned true)
             [ClientList.RowClick beta; ClientList.EditClick]
             ClientList.initialState)) /\
  (In beta [acme; beta] \/
   In (ClientList.RowEditClick beta) [ClientList.RowClick beta; ClientList.EditClick]).
Proof.
  assert (Hin : In (ClientList.EditClient beta)
     (snd (ClientList.session [acme; beta] (fun _ => Returned true)
             (fun _ => Returned true)
             [ClientList.RowClick beta; ClientList.EditClick]
             ClientList.initialState))) by (now left).
  split; [exact Hin|].
  exact (edit_only_known_clients [acme; beta] (fun _ => Returned true)
           (fun _ => Returned true)
           [ClientList.RowClick beta; ClientList.EditClick]
           ClientList.initialState beta Hin).
Defined.

(** X14.  Every handler stays on its own side.  The filter controls leave
    the pending delete and the details view alone and call no collaborator;
    the trash button and the handlers of the confirmation dialog leave the
    filter state, the panel flag and the details view alone; the row cells,
    the pencil button and the handlers of the details dialog leave the
    filter state, the panel flag and the pending delete alone.  So
    confirming a delete never closes the details of the deleted client, and
    no selection handler changes the filters. *)
Theorem actions_touch_one_concern (clients : list Client)
    (onEditClient : Client -> Outcome) (onDeleteClient : string -> Outcome)
    (a : ClientList.Action) (s : ClientList.State) :
  match a with
  | ClientList.SearchChange _ | ClientList.FiltersClick
  | ClientList.AllTagsClick | ClientList.TagClick _
  | ClientList.FromSelect _ | ClientList.ToSelect _ | ClientList.ResetClick =>
      ClientList.clientToDelete
        (final (ClientList.handle clients onEditClient onDeleteClient a s)) =
        ClientList.clientToDelete s /\
      ClientList.showDetails
        (final (ClientList.handle clients onEditClient onDeleteClient a s)) =
        ClientList.showDetails s /\
      trace (ClientList.handle clients onEditClient onDeleteClient a s) = []
  | ClientList.DeleteClick _ | ClientList.CancelDelete
  | ClientList.ConfirmDelete | ClientList.DeleteDialogOpenChange _ =>
      ClientList.filterParams
        (final (ClientList.handle clients onEditClient onDeleteClient a s)) =
        ClientList.filterParams s /\
      ClientList.showFilters
        (final (ClientList.handle clients onEditClient onDeleteClient a s)) =
        ClientList.showFilters s /\
      ClientList.showDetails
        (final (ClientList.handle clients onEditClient onDeleteClient a s)) =
        ClientList.showDetails s
  | ClientList.RowClick _ | ClientList.RowEditClick _ | ClientList.CloseDetails
  | ClientList.EditClick | ClientList.DetailsDialogOpenChange _ =>
      ClientList.filterParams
        (final (ClientList.handle clients onEditClient onDeleteClient a s)) =
        ClientList.filterParams s /\
      ClientList.showFilters
        (final (ClientList.handle clients onEditClient onDeleteClient a s)) =
        ClientList.showFilters s /\
      ClientList.clientToDelete
        (final (ClientList.handle clients onEditClient onDeleteClient a s)) =
        ClientList.clientToDelete s
  end.
Proof. apply handle_frame. Qed.

Lemma delete_only_on_request_witness :
  List.length
    (List.filter ClientList.isDeleteCall
       (snd (ClientList.session [acme; beta] (fun _ => Returned true)
               (fun _ => Thrown "offline")
               [ClientList.DeleteClick beta; ClientList.ConfirmDelete;
                ClientList.CancelDelete; ClientList.ConfirmDelete]
               ClientList.initialState))) <= 2.
Proof.
  exact (proj2 (delete_only_on_request [acme; beta] (fun _ => Returned true)
           (fun _ => Thrown "offline")
           [ClientList.DeleteClick beta; ClientList.ConfirmDelete;
            ClientList.CancelDelete; ClientList.ConfirmDelete]
           ClientList.initialState)).
Defined.

(** ** More on the login form *)
Section LoginRuns.
Import Login.
Variable login : string -> string -> Settlement.

(** The runs of [handleLogin], by cases on the form and the promise. *)
Lemma handleLogin_cases s :
  ((email s = "" \/ password s = "") /\
   handleLogin login s =
     mkRun (setIsLoading false s) [PreventDefault; Toast missingFieldsToast]
       (Normal tt)) \/
  (email s <> "" /\ password s <> "" /\
   login (email s) (password s) = Resolves /\
   handleLogin login s =
     mkRun (setIsLoading false s)
       [PreventDefault; LoginCall (email s) (password s);
        Toast successToast; Navigate "/dashboard"]
       (Normal tt)) \/
  (email s <> "" /\ password s <> "" /\
   (exists reason, login (email s) (password s) = Rejects reason) /\
   handleLogin login s =
     mkRun (setIsLoading false s)
       [PreventDefault; LoginCall (email s) (password s); Toast failureToast]
       (Normal tt)).
Proof.
  destruct (string_empty_dec (email s)) as [He | He].
  { left. split; [now left|]. apply handleLogin_missing. now left. }
  destruct (string_empty_dec (password s)) as [Hp | Hp].
  { left. split; [now right|]. apply handleLogin_missing. now right. }
  right. destruct (login (email s) (password s)) as [|reason] eqn:Hl.
  - left. repeat split; try assumption. now apply handleLogin_resolves.
  - right. repeat split; try assumption; [now exists reason|].
    now apply (handleLogin_rejects login s reason).
Qed.



End LoginRuns.



(** X17.  The login handler navigates to the dashboard exactly when both
    fields are filled in and the login promise resolves; it never navigates
    anywhere else. *)
Theorem login_navigates_iff_resolved
    (login : string -> string -> Login.Settlement) (s : Login.State) :
  (In (Login.Navigate "/dashboard") (trace (Login.handleLogin login s)) <->
   Login.email s <> "" /\ Login.password s <> "" /\
   login (Login.email s) (Login.password s) = Login.Resolves) /\
  forall path, In (Login.Navigate path) (trace (Login.handleLogin login s)) ->
               path = "/dashboard".
Proof.
  destruct (handleLogin_cases login s)
    as [(Hempty & ->) | [(He & Hp & Hl & ->) | (He & Hp & (r & Hl) & ->)]];
    cbn [trace]; split.
  - split.
    + simpl. intros [H | [H | []]]; discriminate.
    + intros (He & Hp & _). destruct Hempty; contradiction.
  - simpl. intros path [H | [H | []]]; discriminate.
  - split; [auto|]. intros _. simpl. auto.
  - simpl. intros path [H | [H | [H | [H | []]]]]; try discriminate. congruence.
  - split.
    + simpl. intros [H | [H | [H | []]]]; discriminate.
    + intros (_ & _ & Hres). congruence.
  - simpl. intros path [H | [H | [H | []]]]; discriminate.
Qed.


(** ** Edge cases of the tag and date criteria *)

(** X19.  The empty string is not a tag filter: a filter state whose tag is
    the empty string returns what the same state without a tag returns, so
    a client that carries the tag "" cannot be singled out by it. *)
Theorem empty_tag_filters_nothing (toLowerCase : string -> string) (newDate : string -> Date)
    (clients : list Client) (s : string) (d : option DateRange) :
  filteredClients toLowerCase newDate {| search := s; tag := Some ""; dateRange := d |} clients =
  filteredClients toLowerCase newDate {| search := s; tag := None; dateRange := d |} clients.
Proof.
  unfold filteredClients. apply List.filter_ext. intros c.
  unfold keeps, tagMatch. cbn [tag JsString.truthy negb orb]. reflexivity.
Qed.

Lemma dateMatch_exact (newDate : string -> Date) (fp : ClientFilterParams)
    (range : DateRange) (c : Client) :
  dateRange fp = Some range ->
  dateMatch newDate fp c = true <->
  (forall D, from range = Some (TimeValue D) ->
     exists t, newDate (createdAt c) = TimeValue t /\ (D < t)%Z) /\
  (forall D, to range = Some (TimeValue D) ->
     exists t, newDate (createdAt c) = TimeValue t /\ (t < D)%Z).
Proof.
  intros Hr. unfold dateMatch. rewrite Hr. destruct range as [f t].
  cbn [from to]. destruct (newDate (createdAt c)) as [|created];
    destruct f as [[|D1]|], t as [[|D2]|]; simpl;
    (split;
     [ intros H; split; intros D HD; try discriminate;
       injection HD as <-; try discriminate;
       try (apply andb_true_iff in H; destruct H as [H1 H2]);
       try (exists created; split; [reflexivity | lia])
     | intros [H1 H2]; try reflexivity;
       try (destruct (H1 _ eq_refl) as (x & Hx & Hlt));
       try (destruct (H2 _ eq_refl) as (y & Hy & Hlt'));
       try discriminate;
       repeat match goal with
              | H : TimeValue _ = TimeValue _ |- _ => injection H as <-
              end;
       try apply andb_true_iff; try split; lia ]).
Qed.

(** X20.  The date criterion, exactly: under a date range a client is
    returned if and only if it is in the collection, passes the search and
    tag criteria, and its creation date is valid and strictly after the
    From bound when that bound is a valid date, and valid and strictly
    before the To bound when that bound is a valid date. *)
Theorem date_filter_exact (toLowerCase : string -> string) (newDate : string -> Date)
    (fp : ClientFilterParams) (clients : list Client) (range : DateRange) :
  dateRange fp = Some range ->
  forall c,
    In c (filteredClients toLowerCase newDate fp clients) <->
    In c clients /\ searchMatch toLowerCase fp c = true /\ tagMatch fp c = true /\
    (forall D, from range = Some (TimeValue D) ->
       exists t, newDate (createdAt c) = TimeValue t /\ (D < t)%Z) /\
    (forall D, to range = Some (TimeValue D) ->
       exists t, newDate (createdAt c) = TimeValue t /\ (t < D)%Z).
Proof.
  intros Hr c.
  rewrite filteredClients_In, (dateMatch_exact newDate fp range c Hr). tauto.
Qed.

Lemma date_filter_exact_witness :
  In beta (filteredClients AsciiGreek.toLowerCase IsoDate.parse
             {| search := ""; tag := None;
                dateRange := Some {| from := Some (IsoDate.parse "2023-03-01");
                                     to := None |} |} [acme; beta]) <->
  In beta [acme; beta] /\
  searchMatch AsciiGreek.toLowerCase {| search := ""; tag := None;
                 dateRange := Some {| from := Some (IsoDate.parse "2023-03-01");
                                      to := None |} |} beta = true /\
  tagMatch {| search := ""; tag := None;
              dateRange := Some {| from := Some (IsoDate.parse "2023-03-01");
                                   to := None |} |} beta = true /\
  (forall D, Some (IsoDate.parse "2023-03-01") = Some (TimeValue D) ->
     exists t, IsoDate.parse (createdAt beta) = TimeValue t /\ (D < t)%Z) /\
  (forall D, @None Date = Some (TimeValue D) ->
     exists t, IsoDate.parse (createdAt beta) = TimeValue t /\ (t < D)%Z).
Proof.
  exact (date_filter_exact AsciiGreek.toLowerCase IsoDate.parse
           {| search := ""; tag := None;
              dateRange := Some {| from := Some (IsoDate.parse "2023-03-01");
                                   to := None |} |}
           [acme; beta]
           {| from := Some (IsoDate.parse "2023-03-01"); to := None |}
           eq_refl beta).
Defined.
